(** * Simplifi-IQ: log analysis and page summarisation

    A shallow embedding of the three Python sources of the repository,

      - [analyze_logs.py] and [Task 1/analyze_logs.py]  (function [analyze]),
      - [Task 2/scrape_summarize.py]  (functions [read_urls],
        [simple_extractive_summary], [summarize_urls]),

    followed by the properties of these functions.

    Conventions.  A Python [str] is a [list ascii]; the text alphabet is
    7-bit ASCII, on which [\s], [\w] and [str.lower] are given by the tables
    below.  A Python [int] is a [Z].  [None] is [None]. *)

From Stdlib Require Import String Ascii List ZArith Lia Bool Arith.
From Stdlib Require Import Permutation Sorting.Sorted DecimalString.
From ExtLib Require Import Structures.Monad Data.Monads.StateMonad.
Import ListNotations.
Import MonadNotation.

Set Implicit Arguments.

(* ===================================================================== *)
(** * Part I.  Python strings                                              *)
(* ===================================================================== *)

Module PyStr.

Definition text := list ascii.

(** A string literal of the source, as a [text]. *)
Definition py (s : string) : text := list_ascii_of_string s.

Fixpoint eqb (a b : text) : bool :=
  match a, b with
  | [], [] => true
  | x :: a', y :: b' => Ascii.eqb x y && eqb a' b'
  | _, _ => false
  end.

(** [c.isspace()], which is also the class [\s] of [re] on [str]:
    TAB, LF, VT, FF, CR, the four separators FS GS RS US, and SPACE. *)
Definition is_space (c : ascii) : bool :=
  let n := nat_of_ascii c in
  ((9 <=? n) && (n <=? 13)) || ((28 <=? n) && (n <=? 32)).

(** The class [\w]: letters, digits and the underscore. *)
Definition is_word (c : ascii) : bool :=
  let n := nat_of_ascii c in
  ((48 <=? n) && (n <=? 57)) || ((65 <=? n) && (n <=? 90))
  || (n =? 95) || ((97 <=? n) && (n <=? 122)).

(** The class [[.!?]]. *)
Definition is_terminal (c : ascii) : bool :=
  Ascii.eqb c "." || Ascii.eqb c "!" || Ascii.eqb c "?".

Definition lower_char (c : ascii) : ascii :=
  let n := nat_of_ascii c in
  if (65 <=? n) && (n <=? 90) then ascii_of_nat (n + 32) else c.

(** [s.lower()] *)
Definition lower (s : text) : text := map lower_char s.

Fixpoint lstrip (s : text) : text :=
  match s with
  | c :: s' => if is_space c then lstrip s' else s
  | [] => []
  end.

Definition rstrip (s : text) : text := rev (lstrip (rev s)).

(** [s.strip()] *)
Definition strip (s : text) : text := rstrip (lstrip s).

(** [sep.join(parts)] *)
Fixpoint join (sep : text) (parts : list text) : text :=
  match parts with
  | [] => []
  | [p] => p
  | p :: rest => p ++ sep ++ join sep rest
  end.

(** [s.startswith(p)] *)
Fixpoint startswith (p s : text) : bool :=
  match p, s with
  | [], _ => true
  | x :: p', y :: s' => Ascii.eqb x y && startswith p' s'
  | _ :: _, [] => false
  end.

(** [x in xs] for a collection of strings. *)
Definition mem (x : text) (xs : list text) : bool := existsb (eqb x) xs.

(** [l[:m]], with Python's reading of a negative bound. *)
Definition slice_to (A : Type) (m : Z) (l : list A) : list A :=
  if (m <? 0)%Z then firstn (length l - Z.to_nat (- m)) l
  else firstn (Z.to_nat m) l.

(** [re.findall(r'\w+', s)]: the maximal runs of word characters, left
    to right.  [run] is the run being read, in reverse. *)
Fixpoint findall_words_from (run : text) (s : text) : list text :=
  match s with
  | [] => match run with [] => [] | _ => [rev run] end
  | c :: s' =>
      if is_word c then findall_words_from (c :: run) s'
      else match run with
           | [] => findall_words_from [] s'
           | _ => rev run :: findall_words_from [] s'
           end
  end.

Definition findall_words (s : text) : list text := findall_words_from [] s.

(** [re.split(r'(?<=[.!?])\s+', s)].

    A match is a maximal run of white space whose first character comes
    right after one of [. ! ?].  The scanner is in one of three modes:
    [Plain], [AfterTerminal] (the character just read is a terminal) and
    [InGap] (inside a match).  The result is never empty; it is returned
    as its first piece and the list of the others. *)
Inductive split_mode := Plain | AfterTerminal | InGap.

Definition mode_after (c : ascii) : split_mode :=
  if is_terminal c then AfterTerminal else Plain.

Fixpoint split_from (m : split_mode) (s : text) : text * list text :=
  match s with
  | [] => ([], [])
  | c :: s' =>
      match m, is_space c with
      | InGap, true => split_from InGap s'
      | AfterTerminal, true =>
          let (p, ps) := split_from InGap s' in ([], p :: ps)
      | _, _ =>
          let (p, ps) := split_from (mode_after c) s' in (c :: p, ps)
      end
  end.

Definition split_sentences (s : text) : list text :=
  let (p, ps) := split_from Plain s in p :: ps.

End PyStr.

(* ===================================================================== *)
(** * Part II.  [Task 2/scrape_summarize.py]                               *)
(* ===================================================================== *)

Module Summarize.
Import PyStr.

(** ** [collections.Counter] over strings

    A counter is kept as the list of its keys with their counts, in the
    order of first insertion. *)
Definition counter := list (text * nat).

Fixpoint counter_incr (w : text) (c : counter) : counter :=
  match c with
  | [] => [(w, 1)]
  | (k, n) :: c' =>
      if eqb k w then (k, S n) :: c' else (k, n) :: counter_incr w c'
  end.

(** [Counter(ws)] *)
Definition Counter (ws : list text) : counter :=
  fold_left (fun c w => counter_incr w c) ws [].

(** [freqs.get(w, 0)] *)
Fixpoint counter_get (c : counter) (w : text) : nat :=
  match c with
  | [] => 0
  | (k, n) :: c' => if eqb k w then n else counter_get c' w
  end.

(** [not freqs] *)
Definition counter_is_empty (c : counter) : bool :=
  match c with [] => true | _ => false end.

Definition stopwords : list text :=
  map py [ "the"; "is"; "in"; "and"; "to"; "of"; "a"; "for"; "on"; "that";
           "with"; "as"; "are"; "was"; "it"; "at"; "by"; "an"; "be";
           "this"; "or"; "from" ]%string.

(** [Counter([w for w in words if w not in stopwords and len(w) > 2])]
    with [words = re.findall(r'\w+', text.lower())]. *)
Definition word_freqs (t : text) : counter :=
  Counter (filter (fun w => negb (mem w stopwords) && (2 <? length w))
                  (findall_words (lower t))).

(** [sum(freqs.get(w,0) for w in re.findall(r'\w+', s.lower()))] *)
Definition score (freqs : counter) (s : text) : nat :=
  list_sum (map (counter_get freqs) (findall_words (lower s))).

(** [sorted(xs, key=lambda x: x[0], reverse=True)]: Python's sort is
    stable, also with [reverse=True]; entries of equal score keep their
    order. *)
Fixpoint insert_desc (x : nat * text) (l : list (nat * text))
  : list (nat * text) :=
  match l with
  | [] => [x]
  | y :: l' => if fst x <? fst y then y :: insert_desc x l' else x :: l
  end.

Fixpoint sorted_desc (l : list (nat * text)) : list (nat * text) :=
  match l with
  | [] => []
  | x :: l' => insert_desc x (sorted_desc l')
  end.

(** The sentences the scoring branch keeps, lines 120-130. *)
Definition scored_selection (freqs : counter) (sentences : list text)
           (max_sentences : Z) : list text :=
  let sent_scores := map (fun s => (score freqs s, s)) sentences in
  let top := slice_to max_sentences (sorted_desc sent_scores) in
  let top_set := map snd top in
  filter (fun s => mem s top_set) sentences.

Definition simple_extractive_summary (t : text) (max_sentences : Z) : text :=
  match t with
  | [] => []
  | _ =>
      let sentences := split_sentences t in
      if (Z.of_nat (length sentences) <=? max_sentences)%Z then
        strip (join (py " ") sentences)
      else
        let freqs := word_freqs t in
        if counter_is_empty freqs then
          strip (join (py " ") (slice_to max_sentences sentences))
        else
          strip (join (py " ") (scored_selection freqs sentences max_sentences))
  end.

(** The sentences that [simple_extractive_summary] joins, path by path. *)
Definition summary_sentences (t : text) (max_sentences : Z) : list text :=
  match t with
  | [] => []
  | _ =>
      let sentences := split_sentences t in
      if (Z.of_nat (List.length sentences) <=? max_sentences)%Z then sentences
      else if counter_is_empty (word_freqs t)
           then slice_to max_sentences sentences
           else scored_selection (word_freqs t) sentences max_sentences
  end.

End Summarize.

(** ** The orchestrator, [summarize_urls]

    The network, the HTML parser, the console and the clock are outside
    the program.  They act on a state [World] of which nothing is known:
    [fetch_page] (lines 65-76) returns the page or [None];
    [extract_text_and_meta] (lines 78-96, BeautifulSoup) is a total
    function of the markup; [gemini_request] is the request and the decoding of the
    response inside [call_gemini_api] (lines 145-170), returning the
    text or [None]; [print] and [sleep] are the two built-ins. *)

Module Orchestrator.
Import PyStr Summarize.
Local Open Scope monad_scope.

(** The dictionary returned by [extract_text_and_meta]. *)
Record page_info := PageInfo {
  info_title : text;
  info_meta_description : text;
  info_text_preview : text;
  info_full_text : text
}.

(** One dictionary of [results]. *)
Record summary_result := SummaryResult {
  r_url : text;
  r_title : text;
  r_meta_description : text;
  r_summary : text;
  r_notes : text
}.

(** Truth value of an [Optional[str]]: [None] and [''] are false. *)
Definition truthy (x : option text) : bool :=
  match x with
  | Some (_ :: _) => true
  | _ => false
  end.

(** The value of an [Optional[str]] known to be true. *)
Definition the_text (x : option text) : text :=
  match x with Some s => s | None => [] end.

(** [str(n)] for a non-negative [int]. *)
Definition str_of_nat (n : nat) : text := py (NilZero.string_of_uint (Nat.to_uint n)).

Definition nl : text := [ascii_of_nat 10].

Section Run.
Variable World : Type.
Variable fetch_page : text -> state World (option text).
Variable extract_text_and_meta : text -> page_info.
Variable gemini_request : text -> text -> text -> state World (option text).
Variable print : text -> state World unit.
Variable sleep : nat -> state World unit.

(** [call_gemini_api(prompt, api_key, api_url)] *)
Definition call_gemini_api (prompt : text) (api_key api_url : option text)
  : state World (option text) :=
  if negb (truthy api_key) || negb (truthy api_url) then ret None
  else gemini_request prompt (the_text api_key) (the_text api_url).

Definition fetch_failed_result (url : text) : summary_result :=
  SummaryResult url [] [] [] (py "fetch_failed").

Definition build_prompt (title meta_description preview : text) : text :=
  py "Summarize the following webpage content in 2-3 short sentences. Keep it factual and concise."
  ++ nl ++ nl ++ py "Title: " ++ title
  ++ nl ++ nl ++ py "Meta: " ++ meta_description
  ++ nl ++ nl ++ py "Content preview: " ++ preview
  ++ nl ++ nl ++ py "Summary:".

(** [f"[{i}/{len(urls)}] Processing: {url}"] *)
Definition progress_line (total i : nat) (url : text) : text :=
  py "[" ++ str_of_nat i ++ py "/" ++ str_of_nat total
  ++ py "] Processing: " ++ url.

Variable use_gemini : bool.
Variable gemini_api_key gemini_api_url : option text.

(** The body of the [for] loop, lines 177-213, for the [i]-th of
    [total] URLs; its value is the dictionary appended to [results]. *)
Definition process_url (total i : nat) (url : text) : state World summary_result :=
  print (progress_line total i url) ;;
  html <- fetch_page url ;;
  if negb (truthy html) then
    ret (fetch_failed_result url)
  else
    let info := extract_text_and_meta (the_text html) in
    let title := info_title info in
    let meta_description := info_meta_description info in
    let preview := info_text_preview info in
    let prompt := build_prompt title meta_description preview in
    sn <- (if use_gemini && truthy gemini_api_key && truthy gemini_api_url then
             summary <- call_gemini_api prompt gemini_api_key gemini_api_url ;;
             if truthy summary then
               ret (the_text summary, py "generated_by_gemini")
             else
               ret (simple_extractive_summary preview 3,
                    py "gemini_failed_fallback_extractive")
           else
             ret (simple_extractive_summary preview 3,
                  py "no_gemini_local_extractive")) ;;
    sleep 1 ;;
    ret (SummaryResult url title meta_description (fst sn) (snd sn)).

(** The loop over [enumerate(urls, start=1)], [results] being the list
    built so far. *)
Fixpoint summarize_loop (total i : nat) (urls : list text)
         (results : list summary_result) : state World (list summary_result) :=
  match urls with
  | [] => ret results
  | url :: rest =>
      r <- process_url total i url ;;
      summarize_loop total (S i) rest (results ++ [r])
  end.

Definition summarize_urls (urls : list text) : state World (list summary_result) :=
  summarize_loop (List.length urls) 1 urls [].

(** What [fetch_page] returns for the [i]-th URL: the loop body up
    to line 178. *)
Definition fetched (total i : nat) (url : text) : state World (option text) :=
  print (progress_line total i url) ;;
  fetch_page url.

(** The prompt built from a fetched page, lines 182-188. *)
Definition prompt_of (html : text) : text :=
  let info := extract_text_and_meta html in
  build_prompt (info_title info) (info_meta_description info)
               (info_text_preview info).

(** What [call_gemini_api] returns for the [i]-th URL when line 194
    is reached. *)
Definition answered (total i : nat) (url : text) : state World (option text) :=
  html <- fetched total i url ;;
  call_gemini_api (prompt_of (the_text html)) gemini_api_key gemini_api_url.

(** The loop, unrolled: the dictionaries it appends and the world it
    leaves. *)
Fixpoint loop_run (total i : nat) (urls : list text) (w : World)
  : list summary_result * World :=
  match urls with
  | [] => ([], w)
  | url :: rest =>
      let (r, w1) := runState (process_url total i url) w in
      let (rs, w2) := loop_run total (S i) rest w1 in
      (r :: rs, w2)
  end.

(** The world when the loop reaches the URL of index [k] (from 0). *)
Definition world_at (k : nat) (urls : list text) (w : World) : World :=
  execState (summarize_loop (List.length urls) 1 (firstn k urls) []) w.

End Run.

(** A scripted world for concrete runs: the pages by URL, the answers
    of the summarisation service in the order they will be given, and
    the lines printed so far. *)
Record script := Script {
  pages : list (text * option text);
  answers : list (option text);
  console : list text
}.

Fixpoint lookup_page (url : text) (ps : list (text * option text)) : option text :=
  match ps with
  | [] => None
  | (u, h) :: ps' => if eqb u url then h else lookup_page url ps'
  end.

Definition script_fetch (url : text) : state script (option text) :=
  mkState (fun w => (lookup_page url (pages w), w)).

Definition script_request (prompt key api_url : text) : state script (option text) :=
  mkState (fun w =>
    match answers w with
    | [] => (None, w)
    | a :: rest => (a, Script (pages w) rest (console w))
    end).

Definition script_print (line : text) : state script unit :=
  mkState (fun w => (tt, Script (pages w) (answers w) (console w ++ [line]))).

Definition script_sleep (seconds : nat) : state script unit :=
  mkState (fun w => (tt, w)).

(** A parser stand-in that takes the whole markup as title and text. *)
Definition script_extract (html : text) : page_info :=
  PageInfo html [] (firstn 800 html) html.

End Orchestrator.

(** ** [read_urls]

    The file system and pandas are outside the program: [path_exists] is
    [Path.exists], [path_suffix] is [Path.suffix], [read_text] is the text
    of the file as [open(..., 'r', encoding='utf8')] decodes it (line ends
    already translated to LF), and [read_csv], [read_excel] give the table
    of a file as its columns by name, a missing cell being [None].  The
    three readers stand for a read that succeeds: where the library raises
    instead (a [.txt] file that is not UTF-8, a table pandas cannot
    parse), [read_urls] raises that error, which is none of the two it
    raises itself; what is stated below of the content read presupposes
    that the file was read. *)

Module ReadUrls.
Import PyStr.

Inductive exn :=
| FileNotFoundError (msg : text)
| ValueError (msg : text).

Definition newline : ascii := ascii_of_nat 10.

(** Iterating over a text file: the lines, each with its line end when
    it has one. *)
Fixpoint file_lines (s : text) : list text :=
  match s with
  | [] => []
  | c :: s' =>
      if Ascii.eqb c newline then [c] :: file_lines s'
      else match file_lines s' with
           | [] => [[c]]
           | l :: ls => (c :: l) :: ls
           end
  end.

Definition is_nonempty (s : text) : bool :=
  match s with [] => false | _ => true end.

(** [[line.strip() for line in f
      if line.strip() and not line.strip().startswith('#')]] *)
Definition url_lines (content : text) : list text :=
  map strip
      (filter (fun line => is_nonempty (strip line)
                           && negb (startswith (py "#") (strip line)))
              (file_lines content)).

Definition table := list (text * list (option text)).

Fixpoint column (name : text) (t : table) : option (list (option text)) :=
  match t with
  | [] => None
  | (n, cells) :: t' => if eqb n name then Some cells else column name t'
  end.

(** [col.dropna().astype(str).tolist()] on a column of strings. *)
Fixpoint dropna (cells : list (option text)) : list text :=
  match cells with
  | [] => []
  | Some v :: cells' => v :: dropna cells'
  | None :: cells' => dropna cells'
  end.

Section Files.
Variable path_exists : text -> bool.
Variable path_suffix : text -> text.
Variable read_text : text -> text.
Variable read_csv read_excel : text -> table.

Definition read_urls (input_path : text) : exn + list text :=
  if negb (path_exists input_path) then
    inl (FileNotFoundError (py "Input file not found: " ++ input_path))
  else
    let suffix := lower (path_suffix input_path) in
    if mem suffix [py ".txt"] then
      inr (url_lines (read_text input_path))
    else if mem suffix [py ".csv"] then
      match column (py "url") (read_csv input_path) with
      | None => inl (ValueError (py "CSV must have a column named 'url'"))
      | Some cells => inr (dropna cells)
      end
    else if mem suffix [py ".xlsx"; py ".xls"] then
      match column (py "url") (read_excel input_path) with
      | None => inl (ValueError (py "Excel file must have a column named 'url'"))
      | Some cells => inr (dropna cells)
      end
    else
      inl (ValueError (py "Unsupported file type. Use .txt, .csv, or .xlsx")).
End Files.

(** The claim's reading of the [.txt] case: strip every line, then keep
    the non-blank ones that do not begin with [#]. *)
Definition stripped_url_lines (content : text) : list text :=
  filter (fun l => is_nonempty l && negb (startswith (py "#") l))
         (map strip (file_lines content)).

End ReadUrls.

(* ===================================================================== *)
(** * Part III.  [analyze_logs.py] and [Task 1/analyze_logs.py]            *)
(* ===================================================================== *)

(** Both files compute the same four tables; [Task 1] adds the rows of
    the combined report.

    A data frame is the list of its rows, each with its index label.
    [pd.read_csv] gives the rows of the file with the labels 0, 1, ...; a
    missing cell is [None].  What pandas computes is taken from pandas, as
    parameters:
    - the two parsers, which with [errors='coerce'] give [None] (NaT, NaN)
      where a cell does not parse; on the one file of a run each acts as a
      function of the cell, and it is that function which [to_datetime]
      and [to_numeric] stand for (the format [pd.to_datetime] settles on
      can differ from file to file);
    - the order [groupby] gives to the keys, [key_leb]: the order of code
      points on a column of strings, the numeric order on a column that
      [read_csv] has read as numbers;
    - the sum [groupby(...).sum()] computes over the durations of a group,
      [column_sum]: int64 arithmetic, which wraps around, on a column of
      integers, float64 arithmetic, which rounds, on any other;
    - the row order [sort_values] chooses, [sort_values_desc] (its default
      [kind] is not a stable sort).
    Durations are whole numbers of minutes. *)

Module AnalyzeLogs.
Import PyStr.

Definition frame (A : Type) := list (nat * A).

(** A frame with the default index 0, 1, ... *)
Definition range_index (A : Type) (rows : list A) : frame A :=
  combine (seq 0 (List.length rows)) rows.

(** [df.reset_index(drop=True)] *)
Definition reset_index (A : Type) (df : frame A) : frame A :=
  range_index (map snd df).

(** [df.head(n)] *)
Definition head (A : Type) (n : nat) (df : frame A) : frame A := firstn n df.

(** A row of the frame [pd.read_csv] returns: each cell as the value
    read, written as text; [None] where the cell is missing. *)
Record csv_row := CsvRow {
  csv_user : option text;
  csv_task_type : option text;
  csv_start : option text;
  csv_duration_min : option text
}.

(** The order of strings: by code point. *)
Fixpoint leb (a b : text) : bool :=
  match a, b with
  | [], _ => true
  | _ :: _, [] => false
  | x :: a', y :: b' =>
      if nat_of_ascii x <? nat_of_ascii y then true
      else if Ascii.eqb x y then leb a' b' else false
  end.

(** The keys put in the order [le]. *)
Fixpoint insert_key (le : text -> text -> bool) (k : text) (ks : list text)
  : list text :=
  match ks with
  | [] => [k]
  | k' :: ks' => if le k k' then k :: ks else k' :: insert_key le k ks'
  end.

Fixpoint sort_keys (le : text -> text -> bool) (ks : list text) : list text :=
  match ks with
  | [] => []
  | k :: ks' => insert_key le k (sort_keys le ks')
  end.

(** The distinct values of a list, at their first occurrence. *)
Fixpoint unique (ks : list text) : list text :=
  match ks with
  | [] => []
  | k :: ks' => k :: filter (fun k' => negb (eqb k k')) (unique ks')
  end.

(** The sum of a list of numbers, as a number: the sum the specification
    speaks of.  The sum pandas computes is [column_sum] below. *)
Definition sum_Z (l : list Z) : Z := fold_right Z.add 0%Z l.

(** Whether a row belongs to the group of key [k]; whether it belongs to
    a group at all. *)
Definition has_key (A : Type) (key : A -> option text) (k : text) (r : A) : bool :=
  match key r with Some k' => eqb k k' | None => false end.

Definition has_some_key (A : Type) (key : A -> option text) (r : A) : bool :=
  match key r with Some _ => true | None => false end.

Section Analyze.
Variable Timestamp : Type.
Variable to_datetime : text -> option Timestamp.
Variable to_numeric : text -> option Z.
Variable column_sum : list Z -> Z.
Variable key_leb : text -> text -> bool.

(** An aggregate row: the key and [total_minutes]. *)
Definition agg_row := (text * Z)%type.

Variable sort_values_desc : frame agg_row -> frame agg_row.

(** A row of [df] once [start] and [duration_min] are replaced. *)
Record log_row := LogRow {
  user : option text;
  task_type : option text;
  start : option Timestamp;
  duration_min : option Z
}.

Definition coerce_cell (A : Type) (parse : text -> option A)
           (cell : option text) : option A :=
  match cell with Some s => parse s | None => None end.

Definition coerce (r : csv_row) : log_row :=
  LogRow (csv_user r) (csv_task_type r)
         (coerce_cell to_datetime (csv_start r))
         (coerce_cell to_numeric (csv_duration_min r)).

Definition isna (A : Type) (x : option A) : bool :=
  match x with None => true | Some _ => false end.

Definition invalid_timestamp (r : log_row) : bool := isna (start r).
Definition invalid_duration (r : log_row) : bool := isna (duration_min r).
Definition negative_duration (r : log_row) : bool :=
  match duration_min r with Some d => (d <? 0)%Z | None => false end.

Definition invalid_mask (r : log_row) : bool :=
  invalid_timestamp r || invalid_duration r || negative_duration r.

(** The value [sum] adds for a row; a missing one counts for nothing. *)
Definition minutes (r : log_row) : Z :=
  match duration_min r with Some d => d | None => 0%Z end.

(** The group keys: the distinct values present, in the order pandas
    gives them; rows whose key is missing belong to no group. *)
Definition group_keys (key : log_row -> option text) (rows : list log_row)
  : list text :=
  sort_keys key_leb (unique (ReadUrls.dropna (map key rows))).

(** [df.groupby(key, as_index=False)['duration_min'].sum()
       .rename(columns={'duration_min':'total_minutes'})] *)
Definition groupby_sum (key : log_row -> option text) (df : frame log_row)
  : frame agg_row :=
  let rows := map snd df in
  range_index
    (map (fun k => (k, column_sum (map minutes (filter (has_key key k) rows))))
         (group_keys key rows)).

Record summary := Summary {
  time_per_user : frame agg_row;
  time_per_task : frame agg_row;
  top3_tasks : frame agg_row;
  invalid_rows : frame log_row
}.

(** The ranking step:
    [.sort_values('total_minutes', ascending=False).head(3)
     .reset_index(drop=True)] *)
Definition rank_top3 (t : frame agg_row) : frame agg_row :=
  reset_index (head 3 (sort_values_desc t)).

(** [analyze], from the rows [pd.read_csv] has read to [summary]. *)
Definition analyze (rows : list csv_row) : summary :=
  let df := range_index (map coerce rows) in
  let invalid_rows := filter (fun ir => invalid_mask (snd ir)) df in
  let valid_df := filter (fun ir => negb (invalid_mask (snd ir))) df in
  let time_per_user := groupby_sum user valid_df in
  let time_per_task := groupby_sum task_type valid_df in
  let top3_tasks := rank_top3 time_per_task in
  Summary time_per_user time_per_task top3_tasks invalid_rows.

(** *** [Task 1]: the [invalid_rows] section of the combined report *)

(** A row of the combined report below the header of the section:
    [c1], [c2], [c3] are the user, the task type and the start of the
    row of [invalid_rows], [c4] the reasons joined by commas. *)
Record report_row := ReportRow {
  section : text;
  c1 : option text;
  c2 : option text;
  c3 : option Timestamp;
  c4 : text
}.

Definition reasons (r : log_row) : list text :=
  (if isna (start r) then [py "bad_timestamp"] else [])
  ++ (if isna (duration_min r) then [py "missing_duration"] else [])
  ++ (if negb (isna (duration_min r)) && negative_duration r
      then [py "negative_duration"] else []).

Definition invalid_section (s : summary) : list report_row :=
  map (fun ir => let r := snd ir in
                 ReportRow (py "invalid_rows") (user r) (task_type r) (start r)
                           (join (py ",") (reasons r)))
      (invalid_rows s).

(** A record of the input is valid when its row is not masked. *)
Definition is_valid (r : csv_row) : bool := negb (invalid_mask (coerce r)).

(** The sum of [total_minutes] over the rows of a table of aggregates. *)
Definition total_minutes (t : frame agg_row) : Z :=
  sum_Z (map (fun ir => snd (snd ir)) t).

End Analyze.

(** *** Parsers, a sum, an order and a sort for concrete runs

    [demo_to_datetime] reads [YYYY-MM-DDTHH:MM] and nothing else;
    [demo_to_numeric] reads an optional minus sign and decimal digits;
    [int64_sum] adds as a column of int64 is added, wrapping around;
    the keys are strings, ordered by [leb];
    [stable_sort_desc] is the insertion sort that keeps equal totals in
    their order. *)

(** The int64 that a whole number wraps around to. *)
Definition wrap_int64 (z : Z) : Z :=
  ((z + 2 ^ 63) mod 2 ^ 64 - 2 ^ 63)%Z.

Definition int64_sum (l : list Z) : Z :=
  fold_left (fun acc d => wrap_int64 (acc + d)) l 0%Z.

Definition is_digit (c : ascii) : bool :=
  let n := nat_of_ascii c in (48 <=? n) && (n <=? 57).

Fixpoint matches_pattern (pat s : text) : bool :=
  match pat, s with
  | [], [] => true
  | p :: pat', c :: s' =>
      (if Ascii.eqb p "D" then is_digit c else Ascii.eqb p c)
      && matches_pattern pat' s'
  | _, _ => false
  end.

Definition demo_to_datetime (s : text) : option text :=
  if matches_pattern (py "DDDD-DD-DDTDD:DD") s then Some s else None.

Fixpoint digits_value (acc : Z) (s : text) : option Z :=
  match s with
  | [] => Some acc
  | c :: s' =>
      if is_digit c
      then digits_value (10 * acc + Z.of_nat (nat_of_ascii c - 48))%Z s'
      else None
  end.

Definition demo_to_numeric (s : text) : option Z :=
  match s with
  | [] => None
  | c :: s' =>
      if Ascii.eqb c "-" then
        match s' with
        | [] => None
        | _ => option_map Z.opp (digits_value 0%Z s')
        end
      else digits_value 0%Z s
  end.

Fixpoint insert_row (x : nat * (text * Z)) (l : frame (text * Z)) : frame (text * Z) :=
  match l with
  | [] => [x]
  | y :: l' =>
      if (snd (snd x) <? snd (snd y))%Z then y :: insert_row x l' else x :: l
  end.

Fixpoint stable_sort_desc (l : frame (text * Z)) : frame (text * Z) :=
  match l with
  | [] => []
  | x :: l' => insert_row x (stable_sort_desc l')
  end.

Definition demo_analyze : list csv_row -> summary text :=
  analyze demo_to_datetime demo_to_numeric int64_sum leb stable_sort_desc.

Definition row (u t s d : string) : csv_row :=
  CsvRow (Some (py u)) (Some (py t)) (Some (py s)) (Some (py d)).

End AnalyzeLogs.

(* ===================================================================== *)
(** * Part III, continued.  Further functions of the sources              *)
(* ===================================================================== *)

(** ** [extract_text_and_meta] *)

Module Extract.
Import PyStr Orchestrator.

(** [re.sub(r'\s+', ' ', s)]: every maximal run of white space becomes one
    space.  [in_run] tells that the character before was white space. *)
Fixpoint collapse_from (in_run : bool) (s : text) : text :=
  match s with
  | [] => []
  | c :: s' =>
      if is_space c then
        if in_run then collapse_from true s' else " "%char :: collapse_from true s'
      else c :: collapse_from false s'
  end.

Definition collapse_ws (s : text) : text := collapse_from false s.

(** BeautifulSoup is outside the program.  [BeautifulSoup] parses the
    markup; [title_string] is [soup.title.string], [None] when there is no
    title element or the element has no single string; [find_meta soup a v]
    is [soup.find('meta', attrs={a: v})]; [tag_content] is the [content]
    attribute of a tag, if it has one; [visible_text] is
    [soup.get_text(separator=' ')] once the [script], [style] and [noscript]
    elements are taken out. *)
Section Soup.
Variable Soup Tag : Type.
Variable BeautifulSoup : text -> Soup.
Variable title_string : Soup -> option text.
Variable find_meta : Soup -> text -> text -> option Tag.
Variable tag_content : Tag -> option text.
Variable visible_text : Soup -> text.

(** [extract_text_and_meta], lines 78-96. *)
Definition extract_text_and_meta (html : text) : page_info :=
  let soup := BeautifulSoup html in
  let title :=
    if truthy (title_string soup) then strip (the_text (title_string soup)) else [] in
  let meta_desc_tag :=
    match find_meta soup (py "name") (py "description") with
    | Some tag => Some tag
    | None => find_meta soup (py "property") (py "og:description")
    end in
  let meta_description :=
    match meta_desc_tag with
    | Some tag => strip (match tag_content tag with Some v => v | None => [] end)
    | None => []
    end in
  let text := strip (collapse_ws (visible_text soup)) in
  let text_preview := firstn 800 text in
  PageInfo title meta_description text_preview text.
End Soup.

(** A parser stand-in for concrete runs: the markup is taken as the title
    string and as the visible text, and there is no [meta] element. *)
Definition plain_extract : text -> page_info :=
  @extract_text_and_meta text text (fun html => html) (fun soup => Some soup)
                         (fun _ _ _ => None) (fun _ => None) (fun soup => soup).

End Extract.

(** ** [main] of [scrape_summarize.py]

    [eprint] is [print(..., file=sys.stderr)], [write_results_csv]
    (lines 217-220) writes the table with pandas, [getenv] is [os.getenv];
    the arguments are those [argparse] has parsed. *)

Module Cli.
Import PyStr Orchestrator.
Local Open Scope monad_scope.

(** How [main] ends: an exception of [read_urls] that nothing catches,
    [sys.exit(status)], or the end of the function. *)
Inductive outcome :=
| Raised (e : ReadUrls.exn)
| Exited (status : nat)
| Returned.

Section Main.
Variable World : Type.
Variable fetch_page : text -> state World (option text).
Variable extract_text_and_meta : text -> page_info.
Variable gemini_request : text -> text -> text -> state World (option text).
Variable print : text -> state World unit.
Variable sleep : nat -> state World unit.
Variable eprint : text -> state World unit.
Variable write_results_csv : list summary_result -> text -> state World unit.
Variable path_exists : text -> bool.
Variable path_suffix : text -> text.
Variable read_text : text -> text.
Variable read_csv read_excel : text -> ReadUrls.table.
Variable getenv : text -> option text.

(** [main], lines 224-242, for the parsed arguments [input], [output]
    and [--no-gemini]. *)
Definition main (input output : text) (no_gemini : bool) : state World outcome :=
  match ReadUrls.read_urls path_exists path_suffix read_text read_csv read_excel input with
  | inl e => ret (Raised e)
  | inr [] =>
      eprint (py "[ERROR] No URLs found.") ;;
      ret (Exited 1)
  | inr urls =>
      let gemini_key := getenv (py "GEMINI_API_KEY") in
      let gemini_url := getenv (py "GEMINI_API_URL") in
      let use_gemini := negb no_gemini && truthy gemini_key && truthy gemini_url in
      results <- summarize_urls fetch_page extract_text_and_meta gemini_request
                                print sleep use_gemini gemini_key gemini_url urls ;;
      write_results_csv results output ;;
      ret Returned
  end.
End Main.
End Cli.

(** ** The files written by [analyze] in [analyze_logs.py], lines 46-51 *)

Module Outputs.
Import PyStr.

(** [s.replace(old, new)] for a non-empty [old]: the occurrences of [old]
    are replaced from the left, without overlap.  [skip] counts the
    characters of an occurrence still to pass. *)
Fixpoint replace_from (skip : nat) (old new s : text) : text :=
  match s with
  | [] => []
  | c :: s' =>
      match skip with
      | S k => replace_from k old new s'
      | 0 =>
          if startswith old s
          then new ++ replace_from (List.length old - 1) old new s'
          else c :: replace_from 0 old new s'
      end
  end.

Definition str_replace (old new s : text) : text := replace_from 0 old new s.

Inductive table_name := TimePerUser | TimePerTask | Top3Tasks | InvalidRows.

Definition suffixes : list text :=
  [py "_time_per_user.csv"; py "_time_per_task.csv"; py "_top3_tasks.csv";
   py "_invalid_rows.csv"].

(** The four paths of lines 48-51 of [analyze_logs.py]. *)
Definition output_paths (output_summary_csv : text) : list text :=
  map (fun sfx => str_replace (py ".csv") sfx output_summary_csv) suffixes.

(** The calls of [to_csv] that [analyze] makes, in order: the path and
    the table written.  Nothing is written when [output_summary_csv] is
    [None] or empty. *)
Definition csv_writes (output_summary_csv : option text) : list (text * table_name) :=
  if Orchestrator.truthy output_summary_csv
  then combine (output_paths (Orchestrator.the_text output_summary_csv))
               [TimePerUser; TimePerTask; Top3Tasks; InvalidRows]
  else [].

(** The table a path holds after a sequence of writes: the last one
    written there. *)
Fixpoint file_holding (writes : list (text * table_name)) (path : text)
  : option table_name :=
  match writes with
  | [] => None
  | (p, t) :: rest =>
      match file_holding rest path with
      | Some t' => Some t'
      | None => if eqb p path then Some t else None
      end
  end.

End Outputs.

(* ===================================================================== *)
(** * Part IV.  Specification vocabulary                                   *)
(* ===================================================================== *)

(** [subseq l1 l2]: [l1] is [l2] with some positions left out, the others
    kept in order. *)
Inductive subseq (A : Type) : list A -> list A -> Prop :=
| subseq_nil : subseq [] []
| subseq_skip : forall x l1 l2, subseq l1 l2 -> subseq l1 (x :: l2)
| subseq_keep : forall x l1 l2, subseq l1 l2 -> subseq (x :: l1) (x :: l2).

#[local] Hint Constructors subseq : core.

(** The [m] best sentences of a list under a score, in the words of the
    specification.  A sentence is outranked by every sentence of strictly
    greater score and by every earlier sentence of equal score;
    [outranking sc before s after] counts them for the sentence [s] that
    stands between [before] and [after].  [top_by_score sc m l] keeps, in
    the order of [l], the sentences outranked by fewer than [m] others. *)
Definition outranking (sc : PyStr.text -> nat) (before : list PyStr.text)
           (s : PyStr.text) (after : list PyStr.text) : nat :=
  List.length (filter (fun x => sc s <=? sc x) before)
  + List.length (filter (fun x => sc s <? sc x) after).

Fixpoint keep_top (sc : PyStr.text -> nat) (m : nat)
         (before l : list PyStr.text) : list PyStr.text :=
  match l with
  | [] => []
  | s :: after =>
      if outranking sc before s after <? m
      then s :: keep_top sc m (before ++ [s]) after
      else keep_top sc m (before ++ [s]) after
  end.

Definition top_by_score (sc : PyStr.text -> nat) (m : nat)
           (l : list PyStr.text) : list PyStr.text :=
  keep_top sc m [] l.

(** ** Vocabulary for the sort of line 127 *)

(** A sentence with its score, as in [sent_scores]. *)
Definition tag (sc : PyStr.text -> nat) (s : PyStr.text) : nat * PyStr.text :=
  (sc s, s).

Definition desc_sorted (l : list (nat * PyStr.text)) : Prop :=
  StronglySorted (fun a b => fst b <= fst a) l.

(** [x] stands at index [k] of [l]. *)
Definition at_index (x : nat * PyStr.text) (k : nat)
           (l : list (nat * PyStr.text)) : Prop :=
  exists front back, l = front ++ x :: back /\ List.length front = k.

(** The number of entries of [l] with a score strictly above that of [x]. *)
Definition count_above (x : nat * PyStr.text) (l : list (nat * PyStr.text)) : nat :=
  List.length (filter (fun y => fst x <? fst y) l).

(** ** Vocabulary for the shape of sentences *)

Fixpoint last_char (s : PyStr.text) : option ascii :=
  match s with
  | [] => None
  | [c] => Some c
  | _ :: s' => last_char s'
  end.

(** The first character is not white space. *)
Definition starts_solid (s : PyStr.text) : Prop :=
  match s with c :: _ => PyStr.is_space c = false | [] => False end.

(** The last character, if there is one, is not white space. *)
Definition ends_solid (s : PyStr.text) : Prop :=
  match last_char s with Some c => PyStr.is_space c = false | None => True end.

(** The last character is one of [. ! ?]. *)
Definition ends_terminal (s : PyStr.text) : Prop :=
  match last_char s with Some c => PyStr.is_terminal c = true | None => False end.

(** The mode of the scanner of [split_from] after reading [s] from mode
    [m] without leaving the piece. *)
Definition mode_end (m : PyStr.split_mode) (s : PyStr.text) : PyStr.split_mode :=
  match last_char s with Some c => PyStr.mode_after c | None => m end.

(** A text with no white space at either end; it is not empty. *)
Definition trimmed (t : PyStr.text) : Prop := starts_solid t /\ ends_solid t.

(** Sentences as the split of a trimmed text gives them: each begins and
    ends on a character that is not white space, has no sentence boundary
    inside, and ends on a terminal when another follows. *)
Fixpoint good_pieces (ps : list PyStr.text) : Prop :=
  match ps with
  | [] => True
  | q :: qs =>
      starts_solid q /\ ends_solid q /\ PyStr.split_from PyStr.InGap q = (q, [])
      /\ (qs <> [] -> ends_terminal q) /\ good_pieces qs
  end.

(** ** Vocabulary for the further properties *)

Section MoreVocabulary.
Import PyStr Summarize Orchestrator.

(** A text in which white space is only single spaces: no white space
    character but the space, and no two in a row.  [prev_space] tells that
    the character before was a space. *)
Fixpoint single_spaced_from (prev_space : bool) (s : text) : Prop :=
  match s with
  | [] => True
  | c :: s' =>
      if is_space c
      then c = " "%char /\ prev_space = false /\ single_spaced_from true s'
      else single_spaced_from false s'
  end.

Definition single_spaced (s : text) : Prop := single_spaced_from false s.

(** The number of times [w] stands in [ws]. *)
Definition occurrences (w : text) (ws : list text) : nat :=
  List.length (filter (fun x => eqb x w) ws).

(** The value the frequency table of the text [t] holds for the word [w],
    in the words of the specification: the number of times [w] stands among
    the lower-cased alphanumeric tokens of [t]; a stop word or a token of at
    most two characters is not in the table and counts for nothing. *)
Definition frequency (t w : text) : nat :=
  if negb (mem w stopwords) && (2 <? List.length w)
  then occurrences w (findall_words (lower t))
  else 0.

(** The score of the sentence [s] within the text [t], in the words of the
    specification: the sum of the frequency-table values of the lower-cased
    alphanumeric tokens of [s], a token counting each time it stands in
    [s]. *)
Definition frequency_score (t s : text) : nat :=
  list_sum (map (frequency t) (findall_words (lower s))).

(** The dictionary of one iteration of [summarize_urls], outcome by
    outcome, from what the fetch and the service returned. *)
Definition expected_result (extract_text_and_meta : text -> page_info)
           (use_gemini : bool) (gemini_api_key gemini_api_url : option text)
           (url : text) (html answer : option text) : summary_result :=
  if negb (truthy html) then SummaryResult url [] [] [] (py "fetch_failed")
  else
    let info := extract_text_and_meta (the_text html) in
    let local := simple_extractive_summary (info_text_preview info) 3 in
    if use_gemini && truthy gemini_api_key && truthy gemini_api_url then
      if truthy answer then
        SummaryResult url (info_title info) (info_meta_description info)
                      (the_text answer) (py "generated_by_gemini")
      else
        SummaryResult url (info_title info) (info_meta_description info)
                      local (py "gemini_failed_fallback_extractive")
    else
      SummaryResult url (info_title info) (info_meta_description info)
                    local (py "no_gemini_local_extractive").

(** A line break stands only at the end of a line. *)
Definition break_only_last (l : text) : Prop :=
  forall pre suf, l = pre ++ ReadUrls.newline :: suf -> suf = [].

(** What a URL read from a text file looks like. *)
Definition clean_url (u : text) : Prop :=
  trimmed u /\ startswith (py "#") u = false /\ ~ In ReadUrls.newline u.

(** A line that [read_urls] passes over: blank, or a comment. *)
Definition skipped_line (line : text) : Prop :=
  strip line = [] \/ startswith (py "#") (strip line) = true.

(** [old] stands somewhere in [s]. *)
Definition occurs_in (old s : text) : Prop := exists pre suf, s = pre ++ old ++ suf.

(** Two strings that differ at a position both have. *)
Fixpoint clashb (a b : text) : bool :=
  match a, b with
  | x :: a', y :: b' => negb (Ascii.eqb x y) || clashb a' b'
  | _, _ => false
  end.

End MoreVocabulary.

Section TableVocabulary.
Import PyStr AnalyzeLogs.

(** Keys in increasing order for [le]. *)
Definition keys_sorted (le : text -> text -> bool) (ks : list text) : Prop :=
  StronglySorted (fun a b => le a b = true) ks.

(** [le] compares any two keys, and in a transitive way. *)
Definition key_order (le : text -> text -> bool) : Prop :=
  (forall a b, le a b = true \/ le b a = true)
  /\ (forall a b c, le a b = true -> le b c = true -> le a c = true).

(** The keys of a table of aggregates, row by row. *)
Definition table_keys (t : frame (text * Z)) : list text :=
  map (fun ir => fst (snd ir)) t.

(** A table grouped by [key] over the valid records of [rows]: one row for
    each value of the key on a valid record, in increasing order of the
    key for [le], with the labels 0, 1, ... *)
Definition grouped_by (le : text -> text -> bool) (valid : csv_row -> bool)
           (key : csv_row -> option text)
           (rows : list csv_row) (t : frame (text * Z)) : Prop :=
  NoDup (table_keys t)
  /\ keys_sorted le (table_keys t)
  /\ (forall k, In k (table_keys t)
                <-> exists r, In r rows /\ valid r = true /\ key r = Some k)
  /\ map fst t = seq 0 (List.length t).

(** Rows in decreasing order of [total_minutes]. *)
Definition desc_totals (t : frame (text * Z)) : Prop :=
  StronglySorted (fun a b : nat * (text * Z) => (snd (snd b) <= snd (snd a))%Z) t.

(** The column [total_minutes] of a table of aggregates. *)
Definition totals (t : frame (text * Z)) : list Z :=
  map (fun ir => snd (snd ir)) t.

(** Where the sums of pandas are exact: on whole numbers, none negative,
    whose sum is below 2^53, an int64 sum does not wrap around and a
    float64 sum is not rounded, so that the sum computed is the sum. *)
Definition exact_sums (column_sum : list Z -> Z) : Prop :=
  forall l, Forall (fun d => (0 <= d)%Z) l -> (sum_Z l < 2 ^ 53)%Z ->
            column_sum l = sum_Z l.

End TableVocabulary.

(* ===================================================================== *)
(** * Part V.  Properties of the summariser                                *)
(* ===================================================================== *)

Section StringFacts.
Import PyStr.

Lemma eqb_eq (a b : text) : eqb a b = true <-> a = b.
Proof.
  revert b; induction a as [|x a IH]; intros [|y b]; simpl;
    try (split; [discriminate | discriminate]); try tauto.
  rewrite andb_true_iff, Ascii.eqb_eq, IH.
  split; [intros [-> ->]; reflexivity | intros [= -> ->]; auto].
Qed.

Lemma eqb_refl (a : text) : eqb a a = true.
Proof. apply eqb_eq; reflexivity. Qed.

Lemma eqb_neq (a b : text) : eqb a b = false <-> a <> b.
Proof.
  rewrite <- eqb_eq. destruct (eqb a b); split; congruence.
Qed.

Lemma mem_In (x : text) (xs : list text) : mem x xs = true <-> In x xs.
Proof.
  unfold mem. rewrite existsb_exists. split.
  - intros (y & Hy & E). apply eqb_eq in E. subst; assumption.
  - intros H. exists x. split; [assumption | apply eqb_refl].
Qed.

Lemma subseq_refl (A : Type) (l : list A) : subseq l l.
Proof. induction l; auto. Qed.

Lemma subseq_nil_l (A : Type) (l : list A) : subseq [] l.
Proof. induction l; auto. Qed.

Lemma subseq_filter (A : Type) (f : A -> bool) (l : list A) :
  subseq (filter f l) l.
Proof. induction l as [|x l IH]; simpl; [|destruct (f x)]; auto. Qed.

Lemma subseq_firstn (A : Type) (n : nat) (l : list A) : subseq (firstn n l) l.
Proof.
  revert n; induction l as [|x l IH]; intros [|n]; simpl; auto.
  apply subseq_nil_l.
Qed.

Lemma subseq_slice_to (A : Type) (m : Z) (l : list A) : subseq (slice_to m l) l.
Proof. unfold slice_to. destruct (m <? 0)%Z; apply subseq_firstn. Qed.

Lemma subseq_In (A : Type) (l1 l2 : list A) :
  subseq l1 l2 -> forall x, In x l1 -> In x l2.
Proof.
  induction 1; simpl; intros y Hy; auto.
  destruct Hy; auto.
Qed.

Lemma subseq_length (A : Type) (l1 l2 : list A) :
  subseq l1 l2 -> List.length l1 <= List.length l2.
Proof. induction 1; simpl; lia. Qed.

Lemma slice_to_nonneg (A : Type) (m : Z) (l : list A) :
  (0 <= m)%Z -> slice_to m l = firstn (Z.to_nat m) l.
Proof.
  intros H. unfold slice_to.
  destruct (Z.ltb_spec m 0); [lia | reflexivity].
Qed.

End StringFacts.

Section SummaryFacts.
Import PyStr Summarize.

Lemma summary_is_join (t : text) (m : Z) :
  simple_extractive_summary t m = strip (join (py " ") (summary_sentences t m)).
Proof.
  unfold simple_extractive_summary, summary_sentences.
  destruct t as [|c t]; [reflexivity|].
  destruct (_ <=? _)%Z; [reflexivity|].
  destruct (counter_is_empty _); reflexivity.
Qed.

Lemma summary_sentences_subseq (t : text) (m : Z) :
  subseq (summary_sentences t m) (split_sentences t).
Proof.
  unfold summary_sentences. destruct t as [|c t]; [apply subseq_nil_l|].
  destruct (_ <=? _)%Z; [apply subseq_refl|].
  destruct (counter_is_empty _); [apply subseq_slice_to|].
  unfold scored_selection. apply subseq_filter.
Qed.

Lemma counter_incr_nonempty (w : text) (c : counter) : counter_incr w c <> [].
Proof. destruct c as [|[k n] c]; simpl; [|destruct (eqb k w)]; discriminate. Qed.

Lemma Counter_fold_nonempty (ws : list text) (c : counter) :
  c <> [] -> fold_left (fun c w => counter_incr w c) ws c <> [].
Proof.
  revert c; induction ws as [|w ws IH]; simpl; intros c Hc; [assumption|].
  apply IH, counter_incr_nonempty.
Qed.

Lemma Counter_empty_iff (ws : list text) :
  counter_is_empty (Counter ws) = true <-> ws = [].
Proof.
  split.
  - destruct ws as [|w ws]; [reflexivity|]. unfold Counter; simpl. intros H.
    pose proof (@Counter_fold_nonempty ws (counter_incr w [])
                  (@counter_incr_nonempty w [])) as Hne.
    destruct (fold_left _ ws _); [congruence | discriminate].
  - intros ->. reflexivity.
Qed.

(** The frequency table is empty exactly when every token of the
    lower-cased text is a stop word or has at most two characters. *)
Lemma word_freqs_empty_iff (t : text) :
  counter_is_empty (word_freqs t) = true <->
  Forall (fun w => mem w stopwords = true \/ List.length w <= 2)
         (findall_words (lower t)).
Proof.
  unfold word_freqs. rewrite Counter_empty_iff.
  induction (findall_words (lower t)) as [|w ws IH]; cbn [filter].
  - split; auto.
  - rewrite Forall_cons_iff, <- IH.
    destruct (mem w stopwords); cbn [negb andb]; [tauto|].
    destruct (Nat.ltb_spec 2 (List.length w)).
    + split; [discriminate|]. intros [[E|E] _]; [discriminate | lia].
    + split; [intros H'; split; auto | tauto].
Qed.

(** ** The counts the frequency table holds *)

Lemma counter_get_incr (w w' : text) (c : counter) :
  counter_get (counter_incr w c) w'
  = counter_get c w' + (if eqb w w' then 1 else 0).
Proof.
  induction c as [|[k n] c IH]; simpl.
  - destruct (eqb w w'); reflexivity.
  - destruct (eqb k w) eqn:Ekw; simpl.
    + apply eqb_eq in Ekw. subst k. destruct (eqb w w'); lia.
    + destruct (eqb k w') eqn:Ekw'; [|exact IH].
      apply eqb_eq in Ekw'. subst k. rewrite eqb_neq in Ekw.
      destruct (eqb w w') eqn:E; [|lia]. apply eqb_eq in E. congruence.
Qed.

Lemma counter_get_fold (ws : list text) : forall (c : counter) (w : text),
  counter_get (fold_left (fun c w => counter_incr w c) ws c) w
  = counter_get c w + occurrences w ws.
Proof.
  unfold occurrences.
  induction ws as [|x ws IH]; intros c w; simpl; [lia|].
  rewrite IH, counter_get_incr. destruct (eqb x w); simpl; lia.
Qed.

Lemma Counter_counts (ws : list text) (w : text) :
  counter_get (Counter ws) w = occurrences w ws.
Proof. unfold Counter. rewrite counter_get_fold. reflexivity. Qed.

Lemma occurrences_filter (f : text -> bool) (w : text) (ws : list text) :
  occurrences w (filter f ws) = if f w then occurrences w ws else 0.
Proof.
  unfold occurrences. induction ws as [|x ws IH]; simpl.
  - destruct (f w); reflexivity.
  - destruct (f x) eqn:Efx; simpl; destruct (eqb x w) eqn:E; simpl; rewrite IH.
    + apply eqb_eq in E. subst. rewrite Efx. reflexivity.
    + reflexivity.
    + apply eqb_eq in E. subst. rewrite Efx. reflexivity.
    + reflexivity.
Qed.

Lemma word_freqs_counts (t w : text) :
  counter_get (word_freqs t) w
  = if negb (mem w stopwords) && (2 <? List.length w)
    then occurrences w (findall_words (lower t))
    else 0.
Proof.
  unfold word_freqs. rewrite Counter_counts.
  apply (occurrences_filter (fun w => negb (mem w stopwords) && (2 <? List.length w))).
Qed.

(** The score line 124 computes is the score of the specification. *)
Lemma score_is_frequency_score (t s : text) :
  score (word_freqs t) s = frequency_score t s.
Proof.
  unfold score, frequency_score, frequency. f_equal. apply map_ext.
  intros w. apply word_freqs_counts.
Qed.

End SummaryFacts.

(** ** The stable descending sort and the rank of a sentence *)

Section TopSelection.
Import PyStr Summarize.

Variable sc : text -> nat.

Lemma at_index_cons x y k l : at_index x k l -> at_index x (S k) (y :: l).
Proof.
  intros (front & back & -> & <-). exists (y :: front), back. split; reflexivity.
Qed.

Lemma at_index_head x l : at_index x 0 (x :: l).
Proof. exists [], l. split; reflexivity. Qed.

Lemma insert_desc_perm x l : Permutation (insert_desc x l) (x :: l).
Proof.
  induction l as [|y l IH]; simpl; [reflexivity|].
  destruct (fst x <? fst y); [|reflexivity].
  rewrite IH. apply perm_swap.
Qed.

Lemma sorted_desc_perm l : Permutation (sorted_desc l) l.
Proof.
  induction l as [|x l IH]; simpl; [reflexivity|].
  rewrite insert_desc_perm, IH. reflexivity.
Qed.

Lemma insert_desc_sorted x l : desc_sorted l -> desc_sorted (insert_desc x l).
Proof.
  unfold desc_sorted. induction l as [|y l IH]; simpl; intros Hs.
  - repeat constructor.
  - apply StronglySorted_inv in Hs as [Hs Hy].
    destruct (Nat.ltb_spec (fst x) (fst y)).
    + constructor; [auto|].
      apply (Permutation_Forall (Permutation_sym (insert_desc_perm x l))).
      constructor; [lia | assumption].
    + constructor; [constructor; assumption|].
      constructor; [assumption|].
      eapply Forall_impl; [|exact Hy]. simpl; intros; lia.
Qed.

Lemma sorted_desc_sorted l : desc_sorted (sorted_desc l).
Proof.
  induction l as [|x l IH]; simpl; [constructor | apply insert_desc_sorted, IH].
Qed.

Lemma count_above_none x l :
  Forall (fun b => fst b <= fst x) l -> count_above x l = 0.
Proof.
  unfold count_above. induction 1 as [|y l Hy _ IH]; simpl; [reflexivity|].
  destruct (Nat.ltb_spec (fst x) (fst y)); [lia | assumption].
Qed.

Lemma count_above_insert x y l :
  count_above x (insert_desc y l) = count_above x (y :: l).
Proof.
  unfold count_above. induction l as [|z l IH]; [reflexivity|].
  simpl. destruct (fst y <? fst z); simpl; [|reflexivity].
  simpl in IH. destruct (fst x <? fst z), (fst x <? fst y); simpl in *; lia.
Qed.

Lemma count_above_sorted x l : count_above x (sorted_desc l) = count_above x l.
Proof.
  induction l as [|y l IH]; simpl; [reflexivity|].
  rewrite count_above_insert. unfold count_above in *. simpl.
  destruct (fst x <? fst y); simpl; lia.
Qed.

(** A new entry lands behind the entries of strictly greater score. *)
Lemma insert_desc_index x l :
  desc_sorted l -> at_index x (count_above x l) (insert_desc x l).
Proof.
  unfold desc_sorted. induction l as [|y l IH]; simpl; intros Hs.
  - apply at_index_head.
  - apply StronglySorted_inv in Hs as [Hs Hy].
    unfold count_above; simpl.
    destruct (Nat.ltb_spec (fst x) (fst y)); simpl.
    + apply at_index_cons, IH, Hs.
    + fold (count_above x l). rewrite count_above_none; [apply at_index_head|].
      eapply Forall_impl; [|exact Hy]. simpl; intros; lia.
Qed.

(** An entry inserted later goes in front of [x] exactly when its score
    is at least that of [x]. *)
Lemma insert_desc_shift p x k l :
  desc_sorted l -> at_index x k l ->
  at_index x (k + (if fst x <=? fst p then 1 else 0)) (insert_desc p l).
Proof.
  unfold desc_sorted. revert k.
  induction l as [|y l IH]; intros k Hs (front & back & E & Hk).
  - destruct front; discriminate.
  - apply StronglySorted_inv in Hs as [Hs Hy]. simpl.
    destruct front as [|z front]; simpl in *.
    + injection E as -> ->. subst k.
      destruct (Nat.ltb_spec (fst p) (fst x)), (Nat.leb_spec (fst x) (fst p));
        try lia; simpl.
      * apply at_index_head.
      * apply at_index_cons, at_index_head.
    + injection E as -> ->. subst k.
      destruct (Nat.ltb_spec (fst p) (fst z)).
      * apply at_index_cons with (k := List.length front + _).
        apply IH; [assumption|]. exists front, back. split; reflexivity.
      * assert (Hx : fst x <= fst z).
        { rewrite Forall_forall in Hy. apply Hy, in_elt. }
        destruct (Nat.leb_spec (fst x) (fst p)); [|lia].
        replace (S (List.length front) + 1) with (S (S (List.length front))) by lia.
        apply at_index_cons. exists (z :: front), back. split; reflexivity.
Qed.

Lemma filter_tag_length (f : nat -> bool) (l : list text) :
  List.length (filter (fun y => f (fst y)) (map (tag sc) l))
  = List.length (filter (fun s => f (sc s)) l).
Proof.
  induction l as [|s l IH]; simpl; [reflexivity|].
  destruct (f (sc s)); simpl; rewrite IH; reflexivity.
Qed.

(** Where the stable sort puts the sentence between [pre] and [post]. *)
Lemma sorted_desc_index (pre : list text) (s : text) (post : list text) :
  at_index (tag sc s) (outranking sc pre s post)
           (sorted_desc (map (tag sc) (pre ++ s :: post))).
Proof.
  unfold outranking. induction pre as [|p pre IH]; simpl.
  - replace (List.length (filter (fun x => sc s <? sc x) post))
      with (count_above (tag sc s) (sorted_desc (map (tag sc) post))).
    + apply insert_desc_index, sorted_desc_sorted.
    + rewrite count_above_sorted. unfold count_above.
      apply (filter_tag_length (fun n => sc s <? n)).
  - pose proof (@insert_desc_shift (tag sc p) (tag sc s) _ _
                  (sorted_desc_sorted _) IH) as H.
    simpl in H. destruct (sc s <=? sc p); simpl in *.
    + replace (S (List.length (filter (fun x => sc s <=? sc x) pre)
                  + List.length (filter (fun x => sc s <? sc x) post)))
        with (List.length (filter (fun x => sc s <=? sc x) pre)
              + List.length (filter (fun x => sc s <? sc x) post) + 1) by lia.
      exact H.
    + rewrite Nat.add_0_r in H. exact H.
Qed.

Lemma sorted_desc_snd_NoDup (l : list text) :
  NoDup l -> NoDup (map snd (sorted_desc (map (tag sc) l))).
Proof.
  intros H. apply Permutation_NoDup with (l := l); [|assumption].
  transitivity (map snd (map (tag sc) l)).
  - rewrite map_map. simpl. rewrite map_id. reflexivity.
  - apply Permutation_map, Permutation_sym, sorted_desc_perm.
Qed.

Lemma at_index_firstn (x : nat * text) (k m : nat) (l : list (nat * text)) :
  NoDup (map snd l) -> at_index x k l ->
  (In (snd x) (map snd (firstn m l)) <-> k < m).
Proof.
  intros Hnd (front & back & -> & <-). split.
  - intros Hin. destruct (Nat.lt_ge_cases (List.length front) m) as [|Hge]; [assumption|].
    exfalso. rewrite firstn_app in Hin.
    replace (m - List.length front) with 0 in Hin by lia.
    simpl in Hin. rewrite app_nil_r in Hin.
    rewrite map_app in Hnd. simpl in Hnd.
    apply NoDup_remove_2 in Hnd. apply Hnd, in_or_app. left.
    apply in_map_iff in Hin as (y & Hy & Hin). apply in_map_iff.
    exists y. split; [assumption|].
    apply (@subseq_In _ _ _ (subseq_firstn m front)); assumption.
  - intros Hlt. rewrite firstn_app, map_app. apply in_or_app. right.
    destruct (m - List.length front) as [|d] eqn:E; [lia|]. simpl. left; reflexivity.
Qed.

(** The set-membership test of line 130 is the test on the rank. *)
Lemma in_top_set_iff (m : nat) (pre : list text) (s : text) (post : list text) :
  NoDup (pre ++ s :: post) ->
  mem s (map snd (firstn m (sorted_desc (map (tag sc) (pre ++ s :: post)))))
  = (outranking sc pre s post <? m).
Proof.
  intros Hnd.
  pose proof (@at_index_firstn (tag sc s) _ m _
                (sorted_desc_snd_NoDup Hnd) (sorted_desc_index pre s post)) as H.
  simpl in H.
  destruct (Nat.ltb_spec (outranking sc pre s post) m) as [Hlt|Hge].
  - apply mem_In, H, Hlt.
  - destruct (mem s _) eqn:E; [|reflexivity].
    apply mem_In, H in E. lia.
Qed.

Lemma filter_keep_top (f : text -> bool) (m : nat) (l before : list text) :
  (forall pre s post, l = pre ++ s :: post ->
                      f s = (outranking sc (before ++ pre) s post <? m)) ->
  filter f l = keep_top sc m before l.
Proof.
  revert before. induction l as [|s l IH]; intros before H; simpl; [reflexivity|].
  rewrite (H [] s l eq_refl), app_nil_r.
  rewrite (IH (before ++ [s])); [reflexivity|].
  intros pre s' post ->. rewrite <- app_assoc. simpl.
  apply (H (s :: pre)). reflexivity.
Qed.

(** Lines 127-130 on pairwise distinct sentences. *)
Lemma scored_filter_is_top (m : nat) (l : list text) :
  NoDup l ->
  filter (fun s => mem s (map snd (firstn m (sorted_desc (map (tag sc) l))))) l
  = top_by_score sc m l.
Proof.
  intros Hnd. apply filter_keep_top.
  intros pre s post E. subst l. simpl. apply in_top_set_iff, Hnd.
Qed.

Lemma NoDup_firstn (A : Type) (n : nat) (l : list A) : NoDup l -> NoDup (firstn n l).
Proof.
  intros H. rewrite <- (firstn_skipn n l) in H.
  apply NoDup_app_remove_r in H. exact H.
Qed.

Lemma top_by_score_length (m : nat) (l : list text) :
  NoDup l -> m <= List.length l -> List.length (top_by_score sc m l) = m.
Proof.
  intros Hnd Hm. rewrite <- scored_filter_is_top by assumption.
  set (top := firstn m (sorted_desc (map (tag sc) l))).
  assert (Hperm : Permutation (sorted_desc (map (tag sc) l)) (map (tag sc) l))
    by apply sorted_desc_perm.
  assert (Hlen : List.length (map snd top) = m).
  { unfold top. rewrite length_map, firstn_length_le; [reflexivity|].
    rewrite (Permutation_length Hperm), length_map. assumption. }
  transitivity (List.length (map snd top)); [|exact Hlen].
  apply Permutation_length, NoDup_Permutation.
  - apply NoDup_filter, Hnd.
  - unfold top. rewrite <- firstn_map. apply NoDup_firstn, sorted_desc_snd_NoDup, Hnd.
  - intros s. rewrite filter_In, mem_In. split; [tauto|]. intros Hin.
    split; [|assumption].
    apply in_map_iff in Hin as (y & <- & Hy).
    apply (@subseq_In _ _ _ (subseq_firstn m _)) in Hy.
    apply (Permutation_in _ Hperm) in Hy.
    apply in_map_iff in Hy as (s' & <- & Hs'). exact Hs'.
Qed.

End TopSelection.

Lemma keep_top_ext (sc sc' : PyStr.text -> nat) (m : nat) (l : list PyStr.text) :
  (forall s, sc s = sc' s) ->
  forall before, keep_top sc m before l = keep_top sc' m before l.
Proof.
  intros E. induction l as [|s after IH]; intros before; simpl; [reflexivity|].
  assert (Eo : outranking sc before s after = outranking sc' before s after).
  { unfold outranking. rewrite E. f_equal; f_equal; apply filter_ext;
      intros x; rewrite E; reflexivity. }
  rewrite Eo, IH. reflexivity.
Qed.

Lemma top_by_score_ext (sc sc' : PyStr.text -> nat) (m : nat) (l : list PyStr.text) :
  (forall s, sc s = sc' s) -> top_by_score sc m l = top_by_score sc' m l.
Proof. intros E. apply keep_top_ext, E. Qed.

(** ** Splitting a summary again *)

Section Resplit.
Import PyStr Summarize.

Lemma terminal_not_space c : is_terminal c = true -> is_space c = false.
Proof.
  unfold is_terminal. rewrite !orb_true_iff, !Ascii.eqb_eq.
  intros [[->| ->]| ->]; reflexivity.
Qed.

Lemma last_char_cons c s : s <> [] -> last_char (c :: s) = last_char s.
Proof. destruct s; [congruence | reflexivity]. Qed.

Lemma last_char_app s1 s2 : s2 <> [] -> last_char (s1 ++ s2) = last_char s2.
Proof.
  intros H. induction s1 as [|c s1 IH]; [reflexivity|].
  simpl app. rewrite last_char_cons; [exact IH|].
  destruct s1; simpl; [assumption | discriminate].
Qed.

Lemma ends_solid_tail c s : ends_solid (c :: s) -> ends_solid s.
Proof.
  unfold ends_solid. destruct s as [|d s]; [simpl; auto|].
  rewrite last_char_cons by discriminate. auto.
Qed.

Lemma split_from_length m s :
  List.length (fst (split_from m s)) <= List.length s.
Proof.
  revert m. induction s as [|c s IH]; intros m; simpl; [lia|].
  destruct m, (is_space c);
    try (destruct (split_from _ s) as [p ps] eqn:E;
         match type of E with split_from ?m' _ = _ => specialize (IH m') end;
         rewrite E in IH; simpl in *; lia).
Qed.

Lemma split_from_solid m c s :
  is_space c = false ->
  split_from m (c :: s)
  = (c :: fst (split_from (mode_after c) s), snd (split_from (mode_after c) s)).
Proof.
  intros H. simpl. rewrite H. destruct (split_from (mode_after c) s), m; reflexivity.
Qed.

Lemma split_from_starts_solid m s :
  starts_solid s -> split_from m s = split_from InGap s.
Proof.
  destruct s as [|c s]; [contradiction|]. simpl. intros ->. destruct m; reflexivity.
Qed.

Lemma split_from_step m c s :
  m = Plain \/ is_space c = false ->
  split_from m (c :: s)
  = (c :: fst (split_from (mode_after c) s), snd (split_from (mode_after c) s)).
Proof.
  intros H. simpl. destruct (split_from (mode_after c) s).
  destruct m, (is_space c); try reflexivity; destruct H; discriminate.
Qed.

(** The first piece of a split, joined to a following text by a white
    space, is split off again. *)
Lemma split_from_piece q : forall m sp rest,
  q <> [] -> split_from m q = (q, []) -> ends_terminal q -> is_space sp = true ->
  split_from m (q ++ sp :: rest)
  = (q, fst (split_from InGap rest) :: snd (split_from InGap rest)).
Proof.
  induction q as [|c q IH]; intros m sp rest Hne Hq Ht Hsp; [congruence|].
  assert (Hstep : m = Plain \/ is_space c = false).
  { destruct m; [left; reflexivity | |]; right;
      destruct (is_space c) eqn:Ec; try reflexivity; exfalso; simpl in Hq; rewrite Ec in Hq.
    - destruct (split_from InGap q) as [p ps]. discriminate.
    - pose proof (split_from_length InGap q) as Hl. rewrite Hq in Hl. simpl in Hl. lia. }
  rewrite split_from_step in Hq by assumption.
  simpl app. rewrite split_from_step by assumption.
  injection Hq as Hp Hps.
  destruct q as [|d q].
  - unfold ends_terminal in Ht. simpl in Ht. unfold mode_after. rewrite Ht.
    simpl. rewrite Hsp. destruct (split_from InGap rest). reflexivity.
  - rewrite (IH (mode_after c) sp rest); [reflexivity | discriminate | | | assumption].
    + destruct (split_from (mode_after c) (d :: q)) as [p ps]. simpl in Hp, Hps. subst. reflexivity.
    + unfold ends_terminal in *. rewrite last_char_cons in Ht by discriminate. exact Ht.
Qed.

Lemma mode_end_cons m c s : mode_end m (c :: s) = mode_end (mode_after c) s.
Proof.
  unfold mode_end. destruct s as [|d s]; [reflexivity|].
  rewrite last_char_cons by discriminate. destruct (last_char (d :: s)) eqn:E; [reflexivity|].
  exfalso. clear -E. revert d E. induction s as [|e s IH]; intros d E; [discriminate|].
  rewrite last_char_cons in E by discriminate. eapply IH, E.
Qed.

Lemma last_char_None s : last_char s = None -> s = [].
Proof.
  induction s as [|c s IH]; [reflexivity|]. destruct s as [|d s]; [discriminate|].
  rewrite last_char_cons by discriminate. intros H. apply IH in H. discriminate.
Qed.

Lemma mode_end_terminal m s :
  s <> [] -> mode_end m s = AfterTerminal -> ends_terminal s.
Proof.
  unfold mode_end, ends_terminal. intros Hne.
  destruct (last_char s) as [c|] eqn:E.
  - unfold mode_after. destruct (is_terminal c); [reflexivity | discriminate].
  - apply last_char_None in E. contradiction.
Qed.

Lemma ends_solid_space_cons c s : is_space c = true -> ends_solid (c :: s) -> s <> [].
Proof. intros Hc H ->. unfold ends_solid in H. simpl in H. congruence. Qed.

Lemma split_from_Plain_nil s : fst (split_from Plain s) = [] -> s = [].
Proof.
  destruct s as [|c s]; [reflexivity|]. rewrite split_from_step by (left; reflexivity).
  discriminate.
Qed.

Lemma split_from_good t : forall m,
  ends_solid t ->
  let p := fst (split_from m t) in
  let ps := snd (split_from m t) in
  split_from m p = (p, [])
  /\ ends_solid p
  /\ (ps <> [] -> mode_end m p = AfterTerminal)
  /\ (m = InGap -> t <> [] -> starts_solid p)
  /\ good_pieces ps.
Proof.
  induction t as [|c t IH]; intros m Ht.
  - simpl. repeat split; try congruence; exact I.
  - assert (Ht' := @ends_solid_tail _ _ Ht).
    destruct (is_space c) eqn:Ec; [destruct m|].
    + (* Plain, on a white space *)
      rewrite split_from_step by (left; reflexivity). cbn [fst snd].
      destruct (IH (mode_after c) Ht') as (Ha & Hb & Hc & _ & He).
      split; [|split; [|split; [|split]]].
      * rewrite split_from_step by (left; reflexivity). rewrite Ha. reflexivity.
      * destruct (fst (split_from (mode_after c) t)) as [|d p'] eqn:Ep.
        -- assert (mode_after c = Plain) as Hm.
           { unfold mode_after. destruct (is_terminal c) eqn:E; [|reflexivity].
             apply terminal_not_space in E. congruence. }
           rewrite Hm in Ep. apply split_from_Plain_nil in Ep. subst t. exact Ht.
        -- unfold ends_solid in *. rewrite last_char_cons by discriminate. exact Hb.
      * intros Hps. rewrite mode_end_cons. auto.
      * discriminate.
      * exact He.
    + (* AfterTerminal, on a white space: a new piece starts *)
      simpl. rewrite Ec.
      assert (Hne := @ends_solid_space_cons _ _ Ec Ht).
      destruct (IH InGap Ht') as (Ha & Hb & Hc & Hd & He).
      destruct (split_from InGap t) as [q qs]. cbn [fst snd] in *.
      specialize (Hd eq_refl Hne).
      repeat split; try congruence; try exact I; try assumption.
      intros Hqs. apply (@mode_end_terminal InGap); [|auto].
      destruct q; [contradiction | discriminate].
    + (* InGap, on a white space *)
      simpl. rewrite Ec.
      assert (Hne := @ends_solid_space_cons _ _ Ec Ht).
      destruct (IH InGap Ht') as (Ha & Hb & Hc & Hd & He).
      repeat split; auto.
    + rewrite split_from_step by (right; assumption). cbn [fst snd].
      destruct (IH (mode_after c) Ht') as (Ha & Hb & Hc & _ & He).
      split; [|split; [|split; [|split]]].
      * rewrite split_from_step by (right; assumption). rewrite Ha. reflexivity.
      * destruct (fst (split_from (mode_after c) t)) as [|d p'] eqn:Ep.
        -- unfold ends_solid. simpl. exact Ec.
        -- unfold ends_solid in *. rewrite last_char_cons by discriminate. exact Hb.
      * intros Hps. rewrite mode_end_cons. auto.
      * intros _ _. exact Ec.
      * exact He.
Qed.

Lemma split_sentences_good (t : text) :
  trimmed t -> good_pieces (split_sentences t).
Proof.
  intros [Hs He]. unfold split_sentences.
  destruct (@split_from_good _ Plain He) as (Ha & Hb & Hc & _ & Hg).
  destruct t as [|c t]; [contradiction|]. simpl in Hs.
  rewrite split_from_step in * by (right; assumption).
  cbn [fst snd] in *.
  destruct (split_from (mode_after c) t) as [p ps]. cbn [fst snd] in *.
  split; [exact Hs|]. split; [exact Hb|]. split.
  - rewrite <- (@split_from_starts_solid Plain) by exact Hs. exact Ha.
  - split; [|exact Hg]. intros Hps. apply (@mode_end_terminal Plain); [discriminate | auto].
Qed.

Lemma good_pieces_subseq (out ps : list text) :
  subseq out ps -> good_pieces ps -> good_pieces out.
Proof.
  induction 1 as [|x l1 l2 Hs IH|x l1 l2 Hs IH]; simpl; auto.
  - intros (_ & _ & _ & _ & Hg). auto.
  - intros (H1 & H2 & H3 & H4 & Hg). repeat split; auto.
    intros Hne. apply H4. intros ->. inversion Hs. subst. contradiction.
Qed.

Lemma resplit_pieces (qs : list text) : forall q,
  good_pieces (q :: qs) -> split_from InGap (join (py " ") (q :: qs)) = (q, qs).
Proof.
  induction qs as [|q2 qs IH]; intros q (Hs & He & Hq & Ht & Hg).
  - exact Hq.
  - change (join (py " ") (q :: q2 :: qs))
      with (q ++ " "%char :: join (py " ") (q2 :: qs)).
    rewrite split_from_piece.
    + rewrite (IH q2 Hg). reflexivity.
    + destruct q; [contradiction | discriminate].
    + exact Hq.
    + apply Ht. discriminate.
    + reflexivity.
Qed.

Lemma join_starts_solid (q : text) (qs : list text) :
  starts_solid q -> starts_solid (join (py " ") (q :: qs)).
Proof.
  destruct q as [|c q]; [contradiction|]. intros H.
  destruct qs; exact H.
Qed.

Lemma join_ends_solid (out : list text) :
  good_pieces out -> ends_solid (join (py " ") out).
Proof.
  induction out as [|q qs IH]; [intros; exact I|].
  intros (Hs & He & Hq & Ht & Hg). destruct qs as [|q2 qs]; [exact He|].
  change (join (py " ") (q :: q2 :: qs))
    with (q ++ " "%char :: join (py " ") (q2 :: qs)).
  specialize (IH Hg). unfold ends_solid in *.
  assert (Hne : join (py " ") (q2 :: qs) <> []).
  { destruct Hg as (Hs2 & _). apply (@join_starts_solid q2 qs) in Hs2.
    destruct (join (py " ") (q2 :: qs)); [contradiction | discriminate]. }
  rewrite last_char_app by discriminate.
  rewrite last_char_cons by assumption. exact IH.
Qed.

Lemma hd_error_rev (s : text) : hd_error (rev s) = last_char s.
Proof.
  induction s as [|c s IH]; [reflexivity|].
  destruct s as [|d s]; [reflexivity|].
  rewrite last_char_cons by discriminate. rewrite <- IH.
  change (rev (c :: d :: s)) with (rev (d :: s) ++ [c]).
  destruct (rev (d :: s)) eqn:E; [|reflexivity].
  apply (f_equal (@List.length _)) in E. rewrite length_rev in E. discriminate.
Qed.

Lemma lstrip_solid (s : text) : starts_solid s -> lstrip s = s.
Proof. destruct s as [|c s]; [contradiction|]. simpl. intros ->. reflexivity. Qed.

Lemma rstrip_solid (s : text) : ends_solid s -> rstrip s = s.
Proof.
  unfold ends_solid, rstrip. rewrite <- hd_error_rev.
  destruct (rev s) as [|d r] eqn:E; simpl.
  - intros _. rewrite <- (rev_involutive s), E. reflexivity.
  - intros ->. rewrite <- E. apply rev_involutive.
Qed.

Lemma strip_solid (s : text) : starts_solid s -> ends_solid s -> strip s = s.
Proof. intros Hs He. unfold strip. rewrite lstrip_solid, rstrip_solid; auto. Qed.

(** Sentences of a trimmed text, joined by single spaces: the join needs no
    trimming and splits into the same sentences. *)
Lemma join_resplit (out : list text) :
  good_pieces out -> out <> [] ->
  strip (join (py " ") out) = join (py " ") out
  /\ split_sentences (join (py " ") out) = out.
Proof.
  intros Hg Hne. destruct out as [|q qs]; [congruence|].
  assert (Hs : starts_solid (join (py " ") (q :: qs)))
    by (apply join_starts_solid, Hg).
  split.
  - apply strip_solid; [exact Hs | apply join_ends_solid, Hg].
  - unfold split_sentences.
    rewrite (@split_from_starts_solid Plain) by exact Hs.
    rewrite resplit_pieces by exact Hg. reflexivity.
Qed.

Lemma summary_sentences_nonempty (t : text) (m : Z) :
  t <> [] -> (1 <= m)%Z -> summary_sentences t m <> [].
Proof.
  intros Ht Hm. unfold summary_sentences. destruct t as [|c t]; [congruence|].
  assert (Hsp : exists p ps, split_sentences (c :: t) = p :: ps).
  { unfold split_sentences. destruct (split_from Plain (c :: t)); eauto. }
  destruct Hsp as (p & ps & E). rewrite E.
  destruct (_ <=? _)%Z; [discriminate|].
  destruct (counter_is_empty _).
  - rewrite slice_to_nonneg by lia.
    destruct (Z.to_nat m) eqn:En; [lia | discriminate].
  - unfold scored_selection. rewrite slice_to_nonneg by lia.
    set (sc := score (word_freqs (c :: t))).
    set (srt := sorted_desc (map (fun s => (sc s, s)) (p :: ps))).
    assert (Hperm : Permutation srt (map (fun s => (sc s, s)) (p :: ps)))
      by apply sorted_desc_perm.
    destruct srt as [|x srt'] eqn:Es.
    { apply Permutation_length in Hperm. discriminate. }
    destruct (Z.to_nat m) eqn:En; [lia|]. cbn [firstn map].
    assert (Hin : In (snd x) (p :: ps)).
    { assert (Hx : In x (map (fun s => (sc s, s)) (p :: ps)))
        by (apply (Permutation_in _ Hperm); left; reflexivity).
      apply in_map_iff in Hx as (s & <- & Hs). exact Hs. }
    intros Hnil.
    assert (Hf : In (snd x) (filter (fun s => mem s (snd x :: map snd (firstn n srt'))) (p :: ps))).
    { apply filter_In. split; [exact Hin|]. apply mem_In. left; reflexivity. }
    rewrite Hnil in Hf. contradiction.
Qed.

(** On a text with no white space at either end and a bound of at least
    one, the summary is the plain join of the sentences kept, and the split
    of the summary gives these sentences back. *)
Theorem summary_resplit (t : text) (m : Z) :
  trimmed t -> (1 <= m)%Z ->
  simple_extractive_summary t m = join (py " ") (summary_sentences t m)
  /\ split_sentences (simple_extractive_summary t m) = summary_sentences t m.
Proof.
  intros Ht Hm.
  assert (Hne : summary_sentences t m <> []).
  { apply summary_sentences_nonempty; [|assumption].
    destruct Ht as [Hs _]. destruct t; [contradiction | discriminate]. }
  assert (Hg : good_pieces (summary_sentences t m)).
  { apply (@good_pieces_subseq _ _ (summary_sentences_subseq t m)).
    apply split_sentences_good, Ht. }
  destruct (@join_resplit _ Hg Hne) as [E1 E2].
  rewrite summary_is_join, E1. split; [reflexivity | exact E2].
Qed.

Lemma scored_selection_is_top (freqs : counter) (l : list text) (m : Z) :
  NoDup l -> (0 <= m)%Z ->
  scored_selection freqs l m = top_by_score (score freqs) (Z.to_nat m) l.
Proof.
  intros Hnd Hm. unfold scored_selection. rewrite slice_to_nonneg by assumption.
  apply (@scored_filter_is_top (score freqs)). assumption.
Qed.

Lemma summary_sentences_bound (t : text) (m : Z) :
  NoDup (split_sentences t) -> (0 <= m)%Z ->
  (Z.of_nat (List.length (summary_sentences t m)) <= m)%Z.
Proof.
  intros Hnd Hm. unfold summary_sentences. destruct t as [|c t]; [simpl; lia|].
  destruct (Z.leb_spec (Z.of_nat (List.length (split_sentences (c :: t)))) m); [assumption|].
  destruct (counter_is_empty _).
  - rewrite slice_to_nonneg by assumption. rewrite length_firstn. lia.
  - rewrite scored_selection_is_top by assumption.
    rewrite top_by_score_length; [lia | assumption | lia].
Qed.

(** X4.  On a text with no white space at either end whose sentences are
    pairwise distinct, with a bound of at least one, the summary splits into
    at most [max_sentences] sentences. *)
Theorem distinct_sentences_within_bound (t : text) (m : Z) :
  trimmed t -> NoDup (split_sentences t) -> (1 <= m)%Z ->
  (Z.of_nat (List.length (split_sentences (simple_extractive_summary t m))) <= m)%Z.
Proof.
  intros Ht Hnd Hm. rewrite (proj2 (@summary_resplit t m Ht Hm)).
  apply summary_sentences_bound; [assumption | lia].
Qed.

End Resplit.


Import PyStr Summarize.

(** C1, at the default bound.  A text of five sentences, four of them the
    same: with [max_sentences = 3] the summary is made of four sentences,
    as the same split counts them. *)
Theorem summary_exceeds_max_sentences :
  simple_extractive_summary
    (py "Same here. Same here. Same here. Same here. Other.") 3
  = py "Same here. Same here. Same here. Same here."
  /\ split_sentences
       (simple_extractive_summary
          (py "Same here. Same here. Same here. Same here. Other.") 3)
     = [py "Same here."; py "Same here."; py "Same here."; py "Same here."]
  /\ (3 < Z.of_nat
            (List.length
               (split_sentences
                  (simple_extractive_summary
                     (py "Same here. Same here. Same here. Same here. Other.") 3))))%Z.
Proof. repeat split; vm_compute; reflexivity. Qed.

(** C3.  When the text has more than [max_sentences] sentences and its
    frequency table is empty, the summary is the first [max_sentences]
    sentences, in their order, joined by single spaces and trimmed; and
    the summary of ["A. B. C. D."] with bound 3 is ["A. B. C."]. *)
Theorem empty_freqs_first_sentences :
  (forall (t : text) (max_sentences : nat),
      max_sentences < List.length (split_sentences t) ->
      counter_is_empty (word_freqs t) = true ->
      simple_extractive_summary t (Z.of_nat max_sentences)
      = strip (join (py " ") (firstn max_sentences (split_sentences t))))
  /\ simple_extractive_summary (py "A. B. C. D.") 3 = py "A. B. C.".
Proof.
  split; [|vm_compute; reflexivity].
  intros t n Hlt He.
  rewrite summary_is_join. f_equal. f_equal.
  unfold summary_sentences.
  destruct t as [|c t].
  - simpl in Hlt. assert (n = 0) as -> by lia. reflexivity.
  - destruct (Z.leb_spec (Z.of_nat (List.length (split_sentences (c :: t))))
                         (Z.of_nat n)); [lia|].
    rewrite He, slice_to_nonneg, Nat2Z.id by lia. reflexivity.
Qed.

Lemma empty_freqs_first_sentences_witness :
  simple_extractive_summary (py "A. B. C. D.") (Z.of_nat 3)
  = strip (join (py " ") (firstn 3 (split_sentences (py "A. B. C. D.")))).
Proof.
  apply (proj1 empty_freqs_first_sentences (py "A. B. C. D.") 3).
  - vm_compute. lia.
  - vm_compute. reflexivity.
Defined.

(** C4.  Whatever the text and the bound, the summary is the join (by
    single spaces, trimmed) of a list of sentences obtained from the split
    of the text by leaving positions out, order kept, each sentence as the
    split gives it.  When the text has no white space at either end and the
    bound is at least one, trimming changes nothing and splitting the
    summary gives that list back. *)
Theorem summary_is_subsequence (t : text) (max_sentences : Z) :
  exists out : list text,
    subseq out (split_sentences t)
    /\ (forall s, In s out -> In s (split_sentences t))
    /\ simple_extractive_summary t max_sentences = strip (join (py " ") out)
    /\ (trimmed t -> (1 <= max_sentences)%Z ->
        simple_extractive_summary t max_sentences = join (py " ") out
        /\ split_sentences (simple_extractive_summary t max_sentences) = out).
Proof.
  exists (summary_sentences t max_sentences).
  pose proof (summary_sentences_subseq t max_sentences) as Hs.
  split; [assumption|]. split; [|split].
  - apply subseq_In; assumption.
  - apply summary_is_join.
  - apply summary_resplit.
Qed.

Lemma summary_is_subsequence_witness :
  let t := py "The cat sat down. Dogs bark loudly at cats. A cat is a cat. Hello." in
  exists out : list text,
    subseq out (split_sentences t)
    /\ (forall s, In s out -> In s (split_sentences t))
    /\ simple_extractive_summary t 2 = strip (join (py " ") out)
    /\ simple_extractive_summary t 2 = join (py " ") out
    /\ split_sentences (simple_extractive_summary t 2) = out.
Proof.
  intros t.
  destruct (summary_is_subsequence t 2) as (out & H1 & H2 & H3 & H4).
  exists out. split; [exact H1|]. split; [exact H2|]. split; [exact H3|].
  apply H4.
  - split; vm_compute; reflexivity.
  - lia.
Defined.

(** C2.  On a text whose sentences are pairwise distinct and more than
    [max_sentences], with a frequency table that is not empty, the summary
    is made of exactly the [max_sentences] sentences of greatest score, ties
    going to the earlier sentence.  The score of a sentence is the sum of
    the frequency-table values of its lower-cased alphanumeric tokens, the
    table holding for a word the number of times it stands among the
    tokens of the text, stop words and tokens of at most two characters
    left out ([frequency_score]).  The sentences chosen stand in their
    order in the text and are joined by single spaces, the result being
    trimmed as on line 131, which changes nothing when the text has no
    white space at either end. *)
Theorem summary_is_top_scored (t : text) (max_sentences : nat) :
  NoDup (split_sentences t) ->
  max_sentences < List.length (split_sentences t) ->
  counter_is_empty (word_freqs t) = false ->
  let chosen := top_by_score (frequency_score t) max_sentences
                             (split_sentences t) in
  simple_extractive_summary t (Z.of_nat max_sentences) = strip (join (py " ") chosen)
  /\ List.length chosen = max_sentences
  /\ subseq chosen (split_sentences t)
  /\ (trimmed t ->
      simple_extractive_summary t (Z.of_nat max_sentences) = join (py " ") chosen).
Proof.
  intros Hnd Hlt Hne chosen.
  assert (E : summary_sentences t (Z.of_nat max_sentences) = chosen).
  { unfold summary_sentences. destruct t as [|c t]; [discriminate Hne|].
    destruct (Z.leb_spec (Z.of_nat (List.length (split_sentences (c :: t))))
                         (Z.of_nat max_sentences)); [lia|].
    rewrite Hne, scored_selection_is_top, Nat2Z.id by (assumption || lia).
    apply top_by_score_ext, score_is_frequency_score. }
  split; [rewrite summary_is_join, E; reflexivity|]. split; [|split].
  - apply top_by_score_length; [assumption | lia].
  - rewrite <- E. apply summary_sentences_subseq.
  - intros Ht. rewrite summary_is_join, E.
    destruct chosen as [|q qs] eqn:Ec; [reflexivity|].
    apply join_resplit; [|discriminate].
    rewrite <- E.
    apply (@good_pieces_subseq _ _ (summary_sentences_subseq t _)).
    apply split_sentences_good, Ht.
Qed.

Lemma summary_is_top_scored_witness :
  let t := py "The cat sat down. Dogs bark loudly at cats. A cat is a cat. Hello." in
  let chosen := top_by_score (frequency_score t) 2 (split_sentences t) in
  simple_extractive_summary t (Z.of_nat 2) = strip (join (py " ") chosen)
  /\ List.length chosen = 2
  /\ subseq chosen (split_sentences t)
  /\ simple_extractive_summary t (Z.of_nat 2) = join (py " ") chosen.
Proof.
  intros t chosen.
  destruct (@summary_is_top_scored t 2) as (H1 & H2 & H3 & H4).
  - vm_compute.
    repeat (constructor;
            [simpl; intros H; repeat (destruct H as [H|H]; [discriminate H|]);
             exact H|]).
    constructor.
  - vm_compute. lia.
  - vm_compute. reflexivity.
  - split; [exact H1|]. split; [exact H2|]. split; [exact H3|].
    apply H4. split; vm_compute; reflexivity.
Defined.

(** The scores of the four sentences of that text and the two chosen:
    [cat] stands three times in the text, every other kept word once. *)
Example top_by_score_example :
  let t := py "The cat sat down. Dogs bark loudly at cats. A cat is a cat. Hello." in
  map (frequency_score t) (split_sentences t) = [5; 4; 6; 1]
  /\ top_by_score (frequency_score t) 2 (split_sentences t)
     = [py "The cat sat down."; py "A cat is a cat."].
Proof. vm_compute. split; reflexivity. Qed.

(* ===================================================================== *)
(** * Part VI.  Properties of the orchestrator                             *)
(* ===================================================================== *)

Section OrchestratorFacts.
Import Orchestrator.
Local Open Scope monad_scope.

Variable World : Type.
Variable fetch_page : text -> state World (option text).
Variable extract_text_and_meta : text -> page_info.
Variable gemini_request : text -> text -> text -> state World (option text).
Variable print : text -> state World unit.
Variable sleep : nat -> state World unit.
Variable use_gemini : bool.
Variable gemini_api_key gemini_api_url : option text.

Local Abbreviation process :=
  (process_url fetch_page extract_text_and_meta gemini_request print sleep
               use_gemini gemini_api_key gemini_api_url).
Local Abbreviation loop :=
  (summarize_loop fetch_page extract_text_and_meta gemini_request print sleep
                  use_gemini gemini_api_key gemini_api_url).
Local Abbreviation run :=
  (summarize_urls fetch_page extract_text_and_meta gemini_request print sleep
                  use_gemini gemini_api_key gemini_api_url).
Local Abbreviation world_before :=
  (world_at fetch_page extract_text_and_meta gemini_request print sleep
            use_gemini gemini_api_key gemini_api_url).
Local Abbreviation unrolled :=
  (loop_run fetch_page extract_text_and_meta gemini_request print sleep
            use_gemini gemini_api_key gemini_api_url).
Local Abbreviation fetch_of := (fetched fetch_page print).
Local Abbreviation answer_of :=
  (answered fetch_page extract_text_and_meta gemini_request print
            gemini_api_key gemini_api_url).

Lemma runState_bind (S A B : Type) (c : state S A) (f : A -> state S B) (w : S) :
  runState (bind c f) w = let (v, w') := runState c w in runState (f v) w'.
Proof. reflexivity. Qed.

#[local] Arguments process_url : simpl never.

Lemma loop_unrolled total i urls results w :
  runState (loop total i urls results) w
  = (results ++ fst (unrolled total i urls w), snd (unrolled total i urls w)).
Proof.
  revert i results w. induction urls as [|url rest IH]; intros i results w;
    cbn [summarize_loop loop_run].
  - cbn. rewrite app_nil_r. reflexivity.
  - rewrite runState_bind.
    destruct (runState (process total i url) w) as [r w1].
    rewrite IH. destruct (unrolled total (S i) rest w1) as [rs w2].
    cbn [fst snd]. rewrite <- app_assoc. reflexivity.
Qed.

Lemma loop_run_urls total i urls w :
  (forall j url w', r_url (evalState (process total j url) w') = url) ->
  map r_url (fst (unrolled total i urls w)) = urls.
Proof.
  intros Hu. revert i w. induction urls as [|url rest IH]; intros i w;
    cbn [loop_run].
  - reflexivity.
  - specialize (Hu i url w). unfold evalState in Hu.
    destruct (runState (process total i url) w) as [r w1].
    specialize (IH (S i) w1).
    destruct (unrolled total (S i) rest w1) as [rs w2]. cbn [fst snd map] in *.
    congruence.
Qed.

Lemma loop_run_nth total i urls w k url :
  nth_error urls k = Some url ->
  nth_error (fst (unrolled total i urls w)) k
  = Some (evalState (process total (i + k) url)
                    (snd (unrolled total i (firstn k urls) w))).
Proof.
  revert i w k. induction urls as [|u rest IH]; intros i w k H.
  - destruct k; discriminate.
  - destruct k as [|k]; cbn [nth_error firstn loop_run] in *.
    + injection H as ->. rewrite Nat.add_0_r. unfold evalState. cbn [snd].
      destruct (runState (process total i url) w) as [r w1].
      destruct (unrolled total (S i) rest w1). reflexivity.
    + destruct (runState (process total i u) w) as [r w1].
      specialize (IH (S i) w1 k H).
      destruct (unrolled total (S i) rest w1) as [rs w2].
      destruct (unrolled total (S i) (firstn k rest) w1) as [rs' w2'].
      cbn [fst snd nth_error] in *. rewrite IH.
      replace (S i + k) with (i + S k) by lia. reflexivity.
Qed.

Lemma world_before_unrolled k urls w :
  world_before k urls w = snd (unrolled (List.length urls) 1 (firstn k urls) w).
Proof. unfold world_at, execState. rewrite loop_unrolled. reflexivity. Qed.

Lemma run_nth urls w k url :
  nth_error urls k = Some url ->
  nth_error (evalState (run urls) w) k
  = Some (evalState (process (List.length urls) (S k) url) (world_before k urls w)).
Proof.
  intros H. unfold summarize_urls, evalState. rewrite loop_unrolled. cbn [fst app].
  rewrite (loop_run_nth _ 1 _ w _ H), world_before_unrolled. reflexivity.
Qed.

Lemma process_url_keeps_url total i url w :
  r_url (evalState (process total i url) w) = url.
Proof.
  unfold process_url, evalState. simpl.
  destruct (runState (print _) w) as [[] w0].
  destruct (runState (fetch_page url) w0) as [html w1].
  destruct (negb (truthy html)); simpl; [reflexivity|].
  match goal with |- context [runState ?c w1] => destruct (runState c w1) as [sn w2] end.
  destruct (runState (sleep 1) w2) as [[] w3]. reflexivity.
Qed.

(** A fetch that returns nothing ends the iteration at line 181. *)
Lemma process_url_fetch_failed total i url w :
  truthy (evalState (fetch_of total i url) w) = false ->
  evalState (process total i url) w = fetch_failed_result url.
Proof.
  unfold process_url, fetched, evalState. simpl.
  destruct (runState (print _) w) as [[] w0].
  destruct (runState (fetch_page url) w0) as [html w1]. simpl.
  intros ->. reflexivity.
Qed.

(** The first branch of line 195. *)
Lemma process_url_generated total i url w :
  truthy (evalState (fetch_of total i url) w) = true ->
  use_gemini = true ->
  truthy gemini_api_key = true ->
  truthy gemini_api_url = true ->
  truthy (evalState (answer_of total i url) w) = true ->
  let info := extract_text_and_meta (the_text (evalState (fetch_of total i url) w)) in
  evalState (process total i url) w
  = SummaryResult url (info_title info) (info_meta_description info)
                  (the_text (evalState (answer_of total i url) w))
                  (py "generated_by_gemini").
Proof.
  unfold process_url, answered, fetched, evalState. simpl.
  destruct (runState (print _) w) as [[] w0].
  destruct (runState (fetch_page url) w0) as [html w1]. simpl.
  intros Hh -> Hk He. rewrite Hh, Hk, He. simpl.
  unfold prompt_of.
  destruct (runState (call_gemini_api _ _ _ _) w1) as [ans w2]. simpl.
  intros ->. simpl.
  destruct (runState (sleep 1) w2) as [[] w3]. reflexivity.
Qed.

(** C6.  The orchestrator returns one dictionary per URL, in the order of
    the URLs; and a URL for which [fetch_page] returns no content ([None]
    or the empty string) gets the dictionary with empty title, empty
    description, empty summary and the note [fetch_failed]. *)
Theorem one_result_per_url (urls : list text) (w : World) :
  let results := evalState (run urls) w in
  List.length results = List.length urls
  /\ map r_url results = urls
  /\ forall k url,
      nth_error urls k = Some url ->
      truthy (evalState (fetch_of (List.length urls) (S k) url)
                        (world_before k urls w)) = false ->
      nth_error results k = Some (SummaryResult url [] [] [] (py "fetch_failed")).
Proof.
  intros results.
  assert (Hu : map r_url results = urls).
  { unfold results, summarize_urls, evalState. rewrite loop_unrolled.
    apply loop_run_urls. intros; apply process_url_keeps_url. }
  split; [rewrite <- (length_map r_url results), Hu; reflexivity|].
  split; [exact Hu|].
  intros k url Hk Hf. unfold results.
  rewrite (run_nth _ w _ Hk), process_url_fetch_failed by assumption.
  reflexivity.
Qed.

(** C5, amended.  For a URL whose fetch returns content, with [use_gemini]
    set and a key and an endpoint that are not empty, when
    [call_gemini_api] returns a text that is not empty, the dictionary
    recorded for the URL has the note [generated_by_gemini] and that text
    as its summary. *)
Theorem external_summary_recorded (urls : list text) (w : World) (k : nat) (url : text) :
  nth_error urls k = Some url ->
  let total := List.length urls in
  let w_k := world_before k urls w in
  truthy (evalState (fetch_of total (S k) url) w_k) = true ->
  use_gemini = true ->
  truthy gemini_api_key = true ->
  truthy gemini_api_url = true ->
  truthy (evalState (answer_of total (S k) url) w_k) = true ->
  exists r,
    nth_error (evalState (run urls) w) k = Some r
    /\ r_url r = url
    /\ r_notes r = py "generated_by_gemini"
    /\ r_summary r = the_text (evalState (answer_of total (S k) url) w_k).
Proof.
  intros Hk total w_k Hf Hu Hkey Hurl Ha.
  rewrite (run_nth _ w _ Hk).
  fold total w_k. rewrite process_url_generated by assumption.
  eexists. split; [reflexivity|]. repeat split.
Qed.

End OrchestratorFacts.

Import Orchestrator.

Lemma one_result_per_url_witness :
  let urls := [py "u1"; py "u2"; py "u3"] in
  let w := Script [(py "u1", Some (py "Hello there. Bye.")); (py "u2", Some [])]
                  [] [] in
  let results :=
    evalState (summarize_urls script_fetch script_extract script_request
                              script_print script_sleep false None None urls) w in
  List.length results = 3
  /\ map r_url results = urls
  /\ nth_error results 1 = Some (SummaryResult (py "u2") [] [] [] (py "fetch_failed")).
Proof.
  intros urls w results.
  destruct (@one_result_per_url script script_fetch script_extract script_request
              script_print script_sleep false None None urls w) as (Hl & Hu & Hf).
  split; [exact Hl|]. split; [exact Hu|].
  apply (Hf 1 (py "u2")); vm_compute; reflexivity.
Defined.

Lemma external_summary_recorded_witness :
  let w := Script [(py "u1", Some (py "Hello there. Bye."))]
                  [Some (py "A greeting.")] [] in
  exists r,
    nth_error
      (evalState (summarize_urls script_fetch script_extract script_request
                                 script_print script_sleep true
                                 (Some (py "key")) (Some (py "endpoint"))
                                 [py "u1"]) w) 0 = Some r
    /\ r_url r = py "u1"
    /\ r_notes r = py "generated_by_gemini"
    /\ r_summary r = py "A greeting.".
Proof.
  intros w.
  apply (@external_summary_recorded script script_fetch script_extract
           script_request script_print script_sleep true
           (Some (py "key")) (Some (py "endpoint")) [py "u1"] w 0 (py "u1"));
    vm_compute; reflexivity.
Defined.

(** C5 as first stated fails when the text returned is the empty string.
    The fetch succeeds, [use_gemini] is set, key and endpoint are present
    and [call_gemini_api] returns [''], which is not [None]; the note is
    [gemini_failed_fallback_extractive] and the summary is the extractive
    one. *)
Lemma external_empty_text_falls_back :
  let w := Script [(py "u1", Some (py "Hello there. Bye."))] [Some []] [] in
  let key := Some (py "key") in
  let endpoint := Some (py "endpoint") in
  evalState (fetched script_fetch script_print 1 1 (py "u1")) w
  = Some (py "Hello there. Bye.")
  /\ evalState (answered script_fetch script_extract script_request script_print
                         key endpoint 1 1 (py "u1")) w
     = Some []
  /\ evalState (summarize_urls script_fetch script_extract script_request
                               script_print script_sleep true key endpoint
                               [py "u1"]) w
     = [SummaryResult (py "u1") (py "Hello there. Bye.") []
                      (py "Hello there. Bye.")
                      (py "gemini_failed_fallback_extractive")].
Proof. repeat split; vm_compute; reflexivity. Qed.

(* ===================================================================== *)
(** * Part VII.  Properties of [read_urls]                                 *)
(* ===================================================================== *)

Section ReadUrlsFacts.
Import ReadUrls.

Lemma map_filter_comm (A B : Type) (f : A -> B) (g : B -> bool) (l : list A) :
  map f (filter (fun x => g (f x)) l) = filter g (map f l).
Proof.
  induction l as [|x l IH]; simpl; [reflexivity|].
  destruct (g (f x)); simpl; rewrite IH; reflexivity.
Qed.

Lemma url_lines_stripped (content : text) :
  url_lines content = stripped_url_lines content.
Proof.
  unfold url_lines, stripped_url_lines.
  apply (map_filter_comm strip
           (fun l => is_nonempty l && negb (startswith (py "#") l))).
Qed.

Lemma startswith_hash (l : text) :
  startswith (py "#") l = true <-> exists rest, l = "#"%char :: rest.
Proof.
  destruct l as [|c l].
  - split; [discriminate | intros [rest H]; discriminate].
  - change (startswith (py "#") (c :: l)) with (Ascii.eqb "#" c && true).
    rewrite andb_true_r, Ascii.eqb_eq. split.
    + intros <-. exists l. reflexivity.
    + intros [rest [= -> _]]. reflexivity.
Qed.

Variable path_exists : text -> bool.
Variable path_suffix : text -> text.
Variable read_text : text -> text.
Variable read_csv read_excel : text -> table.

(** C10.  On a [.txt] file that exists, [read_urls] returns the lines of
    the file, each stripped of white space, leaving out those that are
    then empty and those that then begin with [#]; the order is that of the
    file. *)
Theorem read_urls_txt (input_path : text) :
  path_exists input_path = true ->
  lower (path_suffix input_path) = py ".txt" ->
  read_urls path_exists path_suffix read_text read_csv read_excel input_path
  = inr (filter (fun l => is_nonempty l && negb (startswith (py "#") l))
                (map strip (file_lines (read_text input_path))))
  /\ forall l, In l (stripped_url_lines (read_text input_path)) <->
               (In l (map strip (file_lines (read_text input_path)))
                /\ l <> [] /\ ~ exists rest, l = "#"%char :: rest).
Proof.
  intros He Hs. split.
  - unfold read_urls. rewrite He, Hs. simpl. rewrite url_lines_stripped. reflexivity.
  - intros l. unfold stripped_url_lines.
    rewrite filter_In, andb_true_iff, negb_true_iff, <- startswith_hash.
    destruct (startswith (py "#") l); destruct l; simpl; intuition congruence.
Qed.

End ReadUrlsFacts.

Lemma read_urls_txt_witness :
  let content :=
    join [ReadUrls.newline]
         [py "https://a.example"; py "  # a comment"; py "   https://b.example/x  ";
          py ""; py "#https://c.example"; py "https://d.example"] in
  ReadUrls.read_urls (fun _ => true) (fun _ => py ".TXT") (fun _ => content)
                     (fun _ => []) (fun _ => []) (py "urls.TXT")
  = inr [py "https://a.example"; py "https://b.example/x"; py "https://d.example"].
Proof.
  intros content.
  rewrite (proj1 (@read_urls_txt (fun _ => true) (fun _ => py ".TXT")
                    (fun _ => content) (fun _ => []) (fun _ => [])
                    (py "urls.TXT") eq_refl eq_refl)).
  vm_compute. reflexivity.
Defined.

(* ===================================================================== *)
(** * Part VIII.  Properties of [analyze]                                  *)
(* ===================================================================== *)

(** ** Sums by group *)

Section GroupSums.
Import AnalyzeLogs.

Variable A : Type.
Variable key : A -> option text.
Variable val : A -> Z.

Lemma sum_Z_app (l1 l2 : list Z) : sum_Z (l1 ++ l2) = (sum_Z l1 + sum_Z l2)%Z.
Proof. induction l1 as [|x l1 IH]; simpl; [reflexivity | rewrite IH; lia]. Qed.

Lemma sum_Z_zero (B : Type) (l : list B) : sum_Z (map (fun _ => 0%Z) l) = 0%Z.
Proof. induction l as [|x l IH]; simpl; [reflexivity | rewrite IH; reflexivity]. Qed.

Lemma sum_Z_add (B : Type) (f g : B -> Z) (l : list B) :
  sum_Z (map (fun x => (f x + g x)%Z) l) = (sum_Z (map f l) + sum_Z (map g l))%Z.
Proof. induction l as [|x l IH]; simpl; [reflexivity | rewrite IH; lia]. Qed.

(** Among distinct keys exactly one is the key of a given row. *)
Lemma sum_Z_single (k0 : text) (m : Z) (ks : list text) :
  NoDup ks -> In k0 ks ->
  sum_Z (map (fun k => if eqb k k0 then m else 0%Z) ks) = m.
Proof.
  induction 1 as [|k ks Hk Hnd IH]; simpl; [contradiction|].
  intros [->|Hin].
  - rewrite eqb_refl.
    replace (map (fun k => if eqb k k0 then m else 0%Z) ks)
      with (map (fun _ : text => 0%Z) ks).
    + rewrite sum_Z_zero. lia.
    + apply map_ext_in. intros k Hin.
      destruct (eqb k k0) eqn:E; [|reflexivity].
      apply eqb_eq in E. subst. contradiction.
  - destruct (eqb k k0) eqn:E.
    + apply eqb_eq in E. subst. contradiction.
    + rewrite IH by assumption. lia.
Qed.

(** The totals of the groups add up to the total over the rows that have
    a key. *)
Lemma group_sums_total (ks : list text) (rows : list A) :
  NoDup ks ->
  (forall r k, In r rows -> key r = Some k -> In k ks) ->
  sum_Z (map (fun k => sum_Z (map val (filter (has_key key k) rows))) ks)
  = sum_Z (map val (filter (has_some_key key) rows)).
Proof.
  intros Hnd. induction rows as [|r rows IH]; intros Hcov.
  - apply sum_Z_zero.
  - assert (IH' := IH (fun r' k Hr => Hcov r' k (or_intror Hr))).
    cbn [filter]. destruct (key r) as [k0|] eqn:Ek.
    + assert (Hs : has_some_key key r = true) by (unfold has_some_key; rewrite Ek; reflexivity).
      rewrite Hs. cbn [map sum_Z fold_right]. fold (sum_Z (map val (filter (has_some_key key) rows))).
      rewrite <- IH'.
      rewrite <- (@sum_Z_single k0 (val r) ks Hnd) at 1
        by (apply (Hcov r); [left; reflexivity | assumption]).
      rewrite <- sum_Z_add. f_equal. apply map_ext. intros k.
      unfold has_key at 1. rewrite Ek.
      destruct (eqb k k0); [reflexivity|]. lia.
    + assert (Hs : has_some_key key r = false) by (unfold has_some_key; rewrite Ek; reflexivity).
      rewrite Hs, <- IH'. f_equal. apply map_ext. intros k.
      unfold has_key at 1. rewrite Ek. reflexivity.
Qed.

End GroupSums.

Section KeyFacts.
Import AnalyzeLogs.

Lemma In_dropna (k : text) (cells : list (option text)) :
  In k (ReadUrls.dropna cells) <-> In (Some k) cells.
Proof.
  induction cells as [|[v|] cells IH]; simpl.
  - tauto.
  - rewrite IH. split; (intros [H|H]; [left; congruence | right; assumption]).
  - rewrite IH. split; [auto | intros [H|H]; [discriminate | assumption]].
Qed.

Lemma In_unique (k : text) (ks : list text) : In k (unique ks) <-> In k ks.
Proof.
  induction ks as [|k' ks IH]; simpl; [tauto|].
  rewrite filter_In, IH, negb_true_iff, eqb_neq.
  destruct (list_eq_dec ascii_dec k' k); [tauto|]. tauto.
Qed.

Lemma unique_NoDup (ks : list text) : NoDup (unique ks).
Proof.
  induction ks as [|k ks IH]; simpl; constructor.
  - rewrite filter_In, negb_true_iff, eqb_neq. tauto.
  - apply NoDup_filter, IH.
Qed.

Lemma insert_key_perm (le : text -> text -> bool) (k : text) (ks : list text) :
  Permutation (insert_key le k ks) (k :: ks).
Proof.
  induction ks as [|k' ks IH]; simpl; [reflexivity|].
  destruct (le k k'); [reflexivity|]. rewrite IH. apply perm_swap.
Qed.

Lemma sort_keys_perm (le : text -> text -> bool) (ks : list text) :
  Permutation (sort_keys le ks) ks.
Proof.
  induction ks as [|k ks IH]; simpl; [reflexivity|].
  rewrite insert_key_perm, IH. reflexivity.
Qed.

Lemma range_index_rows_from (A : Type) (rows : list A) (a : nat) :
  map snd (combine (seq a (List.length rows)) rows) = rows.
Proof.
  revert a. induction rows as [|r rows IH]; intros a; simpl; [reflexivity|].
  rewrite IH. reflexivity.
Qed.

Lemma range_index_rows (A : Type) (rows : list A) : map snd (range_index rows) = rows.
Proof. apply range_index_rows_from. Qed.

Lemma filter_rows (A : Type) (f : A -> bool) (df : frame A) :
  map snd (filter (fun ir => f (snd ir)) df) = filter f (map snd df).
Proof. apply map_filter_comm. Qed.

End KeyFacts.

Section AnalyzeFacts.
Import AnalyzeLogs.

Variable Timestamp : Type.
Variable to_datetime : text -> option Timestamp.
Variable to_numeric : text -> option Z.
Variable column_sum : list Z -> Z.
Variable key_leb : text -> text -> bool.
Variable sort_values_desc : frame agg_row -> frame agg_row.

Local Abbreviation analyze' :=
  (analyze to_datetime to_numeric column_sum key_leb sort_values_desc).
Local Abbreviation coerce' := (coerce to_datetime to_numeric).
Local Abbreviation is_valid' := (is_valid to_datetime to_numeric).
Local Abbreviation row_t := (log_row Timestamp).
Local Abbreviation groupby' := (@groupby_sum Timestamp column_sum key_leb).
Local Abbreviation keys' := (@group_keys Timestamp key_leb).

(** The rows of [valid_df] are the coerced valid records, in order. *)
Lemma valid_df_rows (rows : list csv_row) :
  map snd (filter (fun ir : nat * row_t => negb (invalid_mask (snd ir)))
                  (range_index (map coerce' rows)))
  = map coerce' (filter is_valid' rows).
Proof.
  rewrite (filter_rows (fun r : row_t => negb (invalid_mask r))), range_index_rows.
  symmetry. apply (map_filter_comm coerce' (fun r => negb (invalid_mask r))).
Qed.

Lemma range_index_In (A : Type) (i : nat) (x : A) (rows : list A) :
  In (i, x) (range_index rows) -> In x rows.
Proof. unfold range_index. apply in_combine_r. Qed.

(** An entry of a grouped table holds what pandas has added up over the
    rows of its key. *)
Lemma groupby_sum_entry (key : row_t -> option text) (df : frame row_t)
      (i : nat) (k : text) (total : Z) :
  In (i, (k, total)) (groupby' key df) ->
  total = column_sum (map (@minutes _) (filter (has_key key k) (map snd df))).
Proof.
  unfold groupby_sum. intros H. apply range_index_In, in_map_iff in H.
  destruct H as (k' & [= -> <-] & _). reflexivity.
Qed.

Lemma group_keys_NoDup (key : row_t -> option text) (rows : list row_t) :
  NoDup (keys' key rows).
Proof.
  unfold group_keys.
  apply (Permutation_NoDup (Permutation_sym (sort_keys_perm _ _))), unique_NoDup.
Qed.

Lemma group_keys_cover (key : row_t -> option text) (rows : list row_t) r k :
  In r rows -> key r = Some k -> In k (keys' key rows).
Proof.
  intros Hr Hk. unfold group_keys.
  apply (Permutation_in _ (Permutation_sym (sort_keys_perm _ _))).
  apply In_unique, In_dropna. rewrite <- Hk. apply in_map, Hr.
Qed.

(** Where the sum of every group is exact, the total of a grouped table
    is the total over the rows that have the key; rows without it are in
    no group. *)
Lemma groupby_sum_total (key : row_t -> option text) (df : frame row_t) :
  (forall k, column_sum (map (@minutes _) (filter (has_key key k) (map snd df)))
             = sum_Z (map (@minutes _) (filter (has_key key k) (map snd df)))) ->
  total_minutes (groupby' key df)
  = sum_Z (map (@minutes _) (filter (has_some_key key) (map snd df))).
Proof.
  intros Hexact. unfold total_minutes, groupby_sum.
  rewrite <- (map_map snd snd), range_index_rows, map_map. cbn [snd].
  rewrite (map_ext _ _ Hexact).
  apply (group_sums_total key (@minutes _)).
  - apply group_keys_NoDup.
  - intros r k. apply group_keys_cover.
Qed.

Lemma filter_all (A : Type) (f : A -> bool) (l : list A) :
  Forall (fun x => f x = true) l -> filter f l = l.
Proof.
  induction 1 as [|x l Hx _ IH]; simpl; [reflexivity|]. rewrite Hx, IH. reflexivity.
Qed.

(** Valid rows have a duration that is not negative. *)
Lemma valid_minutes_nonneg (r : row_t) : invalid_mask r = false -> (0 <= minutes r)%Z.
Proof.
  unfold invalid_mask, invalid_timestamp, invalid_duration, negative_duration, minutes, isna.
  destruct (start r), (duration_min r) as [d|]; simpl; try discriminate.
  intros H. apply Z.ltb_ge in H. exact H.
Qed.

Lemma valid_rows_unmasked (rows : list csv_row) :
  Forall (fun r : row_t => invalid_mask r = false) (map coerce' (filter is_valid' rows)).
Proof.
  apply Forall_forall. intros r Hr. apply in_map_iff in Hr as (r0 & <- & H0).
  apply filter_In in H0 as [_ H0]. unfold is_valid in H0. apply negb_true_iff, H0.
Qed.

Lemma sum_Z_nonneg (l : list Z) : Forall (fun z => 0 <= z)%Z l -> (0 <= sum_Z l)%Z.
Proof. induction 1; simpl; lia. Qed.

(** Part of a list of numbers, none negative, adds up to no more than
    the list. *)
Lemma sum_Z_filter_le (A : Type) (f : A -> Z) (p : A -> bool) (l : list A) :
  Forall (fun x => 0 <= f x)%Z l ->
  (sum_Z (map f (filter p l)) <= sum_Z (map f l))%Z.
Proof.
  induction 1 as [|x l Hx _ IH]; cbn [filter map sum_Z fold_right]; [lia|].
  fold (sum_Z (map f l)).
  destruct (p x); cbn [map sum_Z fold_right]; fold (sum_Z (map f (filter p l))); lia.
Qed.

(** Within the range where the sums of pandas are exact, what pandas adds
    up over the valid records of a group is the sum of their durations. *)
Lemma group_sum_exact (p : row_t -> bool) (rows : list csv_row) :
  exact_sums column_sum ->
  (sum_Z (map (@minutes _) (map coerce' (filter is_valid' rows))) < 2 ^ 53)%Z ->
  column_sum (map (@minutes _) (filter p (map coerce' (filter is_valid' rows))))
  = sum_Z (map (@minutes _) (filter p (map coerce' (filter is_valid' rows)))).
Proof.
  intros Hexact Hbound.
  assert (Hpos : Forall (fun r : row_t => 0 <= minutes r)%Z
                        (map coerce' (filter is_valid' rows))).
  { eapply Forall_impl; [|apply valid_rows_unmasked].
    intros r. apply valid_minutes_nonneg. }
  apply Hexact.
  - apply Forall_map, Forall_forall. intros r Hr. apply filter_In in Hr as [Hr _].
    rewrite Forall_forall in Hpos. apply Hpos, Hr.
  - pose proof (@sum_Z_filter_le _ (@minutes _) p _ Hpos). lia.
Qed.

(** C7, amended.  Where the sums pandas computes are exact (whole numbers
    of minutes adding up to less than 2^53 over the valid records), every
    entry of [time_per_user] and of [time_per_task] is the sum of the
    durations of the valid records of its key, so that no invalid record
    contributes to it; and when moreover every valid record has a user and
    a task type, the totals of [time_per_task] and of [time_per_user] are
    equal, both being the sum of the durations of the valid records. *)
Theorem aggregates_of_valid_records (rows : list csv_row) :
  exact_sums column_sum ->
  (sum_Z (map (@minutes _) (map coerce' (filter is_valid' rows))) < 2 ^ 53)%Z ->
  let s := analyze' rows in
  let valid := map coerce' (filter is_valid' rows) in
  (forall i k total,
      In (i, (k, total)) (time_per_user s) ->
      total = sum_Z (map (@minutes _) (filter (has_key (@user _) k) valid)))
  /\ (forall i k total,
      In (i, (k, total)) (time_per_task s) ->
      total = sum_Z (map (@minutes _) (filter (has_key (@task_type _) k) valid)))
  /\ (Forall (fun r : row_t => user r <> None /\ task_type r <> None) valid ->
      total_minutes (time_per_task s) = total_minutes (time_per_user s)
      /\ total_minutes (time_per_user s) = sum_Z (map (@minutes _) valid)).
Proof.
  intros Hexact Hbound s valid. unfold s, analyze.
  cbn [time_per_user time_per_task].
  split; [|split].
  - intros i k total H. apply groupby_sum_entry in H.
    rewrite valid_df_rows in H. rewrite H. apply group_sum_exact; assumption.
  - intros i k total H. apply groupby_sum_entry in H.
    rewrite valid_df_rows in H. rewrite H. apply group_sum_exact; assumption.
  - intros Hkeys.
    rewrite !groupby_sum_total
      by (intros k; rewrite valid_df_rows; apply group_sum_exact; assumption).
    rewrite valid_df_rows. fold valid.
    rewrite !filter_all; [split; reflexivity | |].
    + eapply Forall_impl; [|exact Hkeys]. intros r [Hu _].
      unfold has_some_key. destruct (user r); congruence.
    + eapply Forall_impl; [|exact Hkeys]. intros r [_ Ht].
      unfold has_some_key. destruct (task_type r); congruence.
Qed.

(** A record is masked exactly when its start did not parse, or its
    duration did not parse, or its duration is negative. *)
Lemma invalid_mask_iff (r : row_t) :
  invalid_mask r = true <->
  start r = None \/ duration_min r = None
  \/ exists d, duration_min r = Some d /\ (d < 0)%Z.
Proof.
  unfold invalid_mask, invalid_timestamp, invalid_duration, negative_duration, isna.
  destruct (start r), (duration_min r) as [d|]; simpl;
    try (split; [auto | reflexivity]).
  rewrite Z.ltb_lt. split.
  - intros H. right; right. exists d. auto.
  - intros [H|[H|(d' & [= <-] & H)]]; [discriminate | discriminate | assumption].
Qed.

(** The rows of [invalid_rows] are the masked rows of the coerced frame,
    with their labels. *)
Lemma invalid_rows_iff (rows : list csv_row) (i : nat) (r : row_t) :
  In (i, r) (invalid_rows (analyze' rows)) <->
  In (i, r) (range_index (map coerce' rows)) /\ invalid_mask r = true.
Proof. unfold analyze. cbn [invalid_rows]. rewrite filter_In. reflexivity. Qed.

Lemma top3_at_most_three (rows : list csv_row) :
  List.length (top3_tasks (analyze' rows)) <= 3.
Proof.
  unfold analyze, rank_top3, reset_index, range_index, head. cbn [top3_tasks].
  rewrite length_combine, length_seq, length_map, Nat.min_id.
  rewrite length_firstn. lia.
Qed.

End AnalyzeFacts.

Import AnalyzeLogs.

(** An int64 sum is exact below 2^53: it never wraps around there. *)
Lemma wrap_int64_small (z : Z) : (0 <= z < 2 ^ 53)%Z -> wrap_int64 z = z.
Proof.
  intros Hz. unfold wrap_int64.
  rewrite Z.mod_small; [lia|].
  change (2 ^ 53)%Z with 9007199254740992%Z in Hz.
  change (2 ^ 63)%Z with 9223372036854775808%Z.
  change (2 ^ 64)%Z with 18446744073709551616%Z. lia.
Qed.

Lemma int64_sum_from (l : list Z) : forall acc : Z,
  Forall (fun d => 0 <= d)%Z l -> (0 <= acc)%Z -> (acc + sum_Z l < 2 ^ 53)%Z ->
  fold_left (fun a d => wrap_int64 (a + d)) l acc = (acc + sum_Z l)%Z.
Proof.
  induction l as [|d l IH]; intros acc Hl Hacc Hb; cbn [fold_left sum_Z fold_right] in *.
  - lia.
  - fold (sum_Z l) in *. apply Forall_cons_iff in Hl as [Hd Hl].
    pose proof (sum_Z_nonneg Hl) as Hs.
    rewrite wrap_int64_small by lia.
    rewrite IH by (assumption || lia). lia.
Qed.

Lemma int64_sum_exact : exact_sums int64_sum.
Proof.
  intros l Hl Hb. unfold int64_sum. rewrite int64_sum_from by (assumption || lia).
  reflexivity.
Qed.

Lemma aggregates_of_valid_records_witness :
  let rows := [row "alice" "build" "2024-01-01T10:00" "30";
               row "alice" "build" "bad-date" "20";
               row "bob" "test" "2024-01-01T11:00" "-5";
               row "carol" "test" "2024-01-02T09:30" "12"] in
  total_minutes (time_per_task (demo_analyze rows))
  = total_minutes (time_per_user (demo_analyze rows))
  /\ total_minutes (time_per_user (demo_analyze rows))
     = sum_Z (map (@minutes _)
                  (map (coerce demo_to_datetime demo_to_numeric)
                       (filter (is_valid demo_to_datetime demo_to_numeric) rows))).
Proof.
  intros rows.
  apply (proj2 (proj2 (@aggregates_of_valid_records text demo_to_datetime
                         demo_to_numeric int64_sum leb stable_sort_desc rows
                         int64_sum_exact ltac:(vm_compute; reflexivity)))).
  vm_compute. repeat constructor; discriminate.
Defined.

(** C7 as first stated fails on a valid record without a user: its
    duration is in [time_per_task] and in no row of [time_per_user]. *)
Lemma missing_user_breaks_totals :
  let rows := [row "alice" "build" "2024-01-01T10:00" "30";
               CsvRow None (Some (py "test")) (Some (py "2024-01-01T11:00"))
                      (Some (py "20"))] in
  map (is_valid demo_to_datetime demo_to_numeric) rows = [true; true]
  /\ time_per_user (demo_analyze rows) = [(0, (py "alice", 30%Z))]
  /\ time_per_task (demo_analyze rows) = [(0, (py "build", 30%Z)); (1, (py "test", 20%Z))]
  /\ total_minutes (time_per_user (demo_analyze rows)) = 30%Z
  /\ total_minutes (time_per_task (demo_analyze rows)) = 50%Z
  /\ total_minutes (time_per_task (demo_analyze rows))
     <> total_minutes (time_per_user (demo_analyze rows)).
Proof. repeat split; vm_compute; (reflexivity || discriminate). Qed.

(** Beyond the range where sums are exact an entry need not be the sum of
    the durations of its records: on a column of int64 the total of two
    valid records wraps around to a negative number. *)
Lemma int64_total_wraps :
  let rows := [row "alice" "build" "2024-01-01T10:00" "9223372036854775807";
               row "alice" "build" "2024-01-01T11:00" "1"] in
  map (is_valid demo_to_datetime demo_to_numeric) rows = [true; true]
  /\ time_per_user (demo_analyze rows)
     = [(0, (py "alice", (-9223372036854775808)%Z))]
  /\ sum_Z (map (@minutes _)
                (map (coerce demo_to_datetime demo_to_numeric) rows))
     = 9223372036854775808%Z.
Proof. repeat split; vm_compute; reflexivity. Qed.

(** C8.  A record whose start does not parse is reported in [invalid_rows]
    with its start replaced by the missing value: the text of the field is
    not kept, two records that differ in it give the same result, and the
    row of the combined report shows the missing value too. *)
Theorem invalid_rows_lose_original_text :
  let a := row "alice" "build" "bad-date" "20" in
  let b := row "alice" "build" "yesterday" "20" in
  a <> b
  /\ invalid_rows (demo_analyze [a])
     = [(0, LogRow (Some (py "alice")) (Some (py "build")) None (Some 20%Z))]
  /\ demo_analyze [a] = demo_analyze [b]
  /\ invalid_section (demo_analyze [a])
     = [ReportRow (py "invalid_rows") (Some (py "alice")) (Some (py "build"))
                  None (py "bad_timestamp")].
Proof.
  repeat split; try (vm_compute; reflexivity).
  vm_compute. discriminate.
Qed.

(* ===================================================================== *)
(** * Part IX.  Further properties of the summariser                       *)
(* ===================================================================== *)

Section MoreSummaryFacts.
Import Extract.

Lemma length_lstrip (s : text) : List.length (lstrip s) <= List.length s.
Proof.
  induction s as [|c s IH]; simpl; [lia|]. destruct (is_space c); simpl; lia.
Qed.

Lemma length_strip (s : text) : List.length (strip s) <= List.length s.
Proof.
  unfold strip, rstrip. rewrite length_rev.
  etransitivity; [apply length_lstrip|]. rewrite length_rev. apply length_lstrip.
Qed.

Lemma join_cons_cons (sep p q : text) (qs : list text) :
  join sep (p :: q :: qs) = p ++ sep ++ join sep (q :: qs).
Proof. reflexivity. Qed.

Lemma length_join_subseq (sep : text) (l1 l2 : list text) :
  subseq l1 l2 -> List.length (join sep l1) <= List.length (join sep l2).
Proof.
  induction 1 as [|x l1 l2 Hs IH|x l1 l2 Hs IH]; [reflexivity| |].
  - destruct l2 as [|y l2].
    + inversion Hs. simpl. lia.
    + rewrite join_cons_cons, !length_app. lia.
  - destruct l1 as [|y l1], l2 as [|z l2].
    + reflexivity.
    + rewrite join_cons_cons, !length_app. simpl. lia.
    + inversion Hs.
    + rewrite !join_cons_cons, !length_app. lia.
Qed.

Lemma length_split_join (t : text) : forall m,
  List.length (join (py " ") (fst (split_from m t) :: snd (split_from m t)))
  <= List.length t.
Proof.
  induction t as [|c t IH]; intros m; [simpl; lia|].
  cbn [split_from].
  destruct m, (is_space c);
    try (specialize (IH (mode_after c));
         destruct (split_from (mode_after c) t) as [p ps]; cbn [fst snd] in *;
         destruct ps; [simpl in *; lia | rewrite join_cons_cons in *; simpl in *; lia]).
  - specialize (IH InGap). destruct (split_from InGap t) as [p ps]. cbn [fst snd] in *.
    rewrite join_cons_cons. simpl in *. lia.
  - specialize (IH InGap). cbn [List.length]. lia.
Qed.

(** X1.  The summary is never longer than the text. *)
Theorem summary_not_longer (t : text) (max_sentences : Z) :
  List.length (simple_extractive_summary t max_sentences) <= List.length t.
Proof.
  rewrite summary_is_join.
  etransitivity; [apply length_strip|].
  etransitivity; [apply (@length_join_subseq _ _ _ (summary_sentences_subseq t max_sentences))|].
  unfold split_sentences.
  pose proof (length_split_join t Plain) as H.
  destruct (split_from Plain t). exact H.
Qed.

(** ** What [strip] leaves *)

Lemma lstrip_starts (s : text) : lstrip s = [] \/ starts_solid (lstrip s).
Proof.
  induction s as [|c s IH]; simpl; [left; reflexivity|].
  destruct (is_space c) eqn:E; [exact IH|]. right. exact E.
Qed.

Lemma lstrip_suffix (s : text) :
  exists pre, s = pre ++ lstrip s /\ Forall (fun c => is_space c = true) pre.
Proof.
  induction s as [|c s (pre & E & Hpre)]; simpl.
  - exists []. split; [reflexivity | constructor].
  - destruct (is_space c) eqn:Ec.
    + exists (c :: pre). split; [simpl; congruence | constructor; assumption].
    + exists []. split; [reflexivity | constructor].
Qed.

Lemma rstrip_ends (s : text) : ends_solid (rstrip s).
Proof.
  unfold rstrip, ends_solid. rewrite <- hd_error_rev, rev_involutive.
  destruct (lstrip_starts (rev s)) as [E|H]; [rewrite E; exact I|].
  destruct (lstrip (rev s)); [contradiction | exact H].
Qed.

Lemma rstrip_starts (s : text) : starts_solid s -> starts_solid (rstrip s).
Proof.
  intros Hs. unfold rstrip.
  destruct (lstrip_suffix (rev s)) as (pre & E & Hpre).
  assert (Es : s = rev (lstrip (rev s)) ++ rev pre).
  { rewrite <- rev_app_distr, <- E, rev_involutive. reflexivity. }
  destruct (rev (lstrip (rev s))) as [|d v] eqn:Ev.
  - simpl in Es. destruct s as [|c s]; [contradiction|]. simpl in Hs.
    assert (Hc : In c (rev pre)) by (rewrite <- Es; left; reflexivity).
    apply in_rev in Hc. rewrite Forall_forall in Hpre. apply Hpre in Hc. congruence.
  - rewrite Es in Hs. exact Hs.
Qed.

Lemma strip_trimmed (s : text) : strip s = [] \/ trimmed (strip s).
Proof.
  unfold strip. destruct (lstrip_starts s) as [E|H].
  - left. rewrite E. reflexivity.
  - right. split; [apply rstrip_starts, H | apply rstrip_ends].
Qed.

(** X2.  The summary is empty or has no white space at either end. *)
Theorem summary_is_trimmed (t : text) (max_sentences : Z) :
  simple_extractive_summary t max_sentences = []
  \/ trimmed (simple_extractive_summary t max_sentences).
Proof. rewrite summary_is_join. apply strip_trimmed. Qed.

(** ** Collapsing white space *)

Lemma collapse_from_single_spaced (s : text) : forall b,
  single_spaced_from b (collapse_from b s).
Proof.
  induction s as [|c s IH]; intros b; simpl; [exact I|].
  destruct (is_space c) eqn:Ec.
  - destruct b; [apply IH|]. simpl. repeat split. apply IH.
  - simpl. rewrite Ec. apply IH.
Qed.

Lemma collapse_ws_single_spaced (s : text) : single_spaced (collapse_ws s).
Proof. apply collapse_from_single_spaced. Qed.

Lemma collapse_from_fixed (s : text) : forall b,
  single_spaced_from b s -> collapse_from b s = s.
Proof.
  induction s as [|c s IH]; intros b H; simpl in *; [reflexivity|].
  destruct (is_space c) eqn:Ec.
  - destruct H as (-> & -> & H). f_equal. apply IH, H.
  - f_equal. apply IH, H.
Qed.

Lemma collapse_ws_idempotent (s : text) : collapse_ws (collapse_ws s) = collapse_ws s.
Proof. apply collapse_from_fixed, collapse_from_single_spaced. Qed.

(** ** Splitting and joining a single-spaced text *)

Lemma join_cons_head (sep : text) (c : ascii) (p : text) (ps : list text) :
  join sep ((c :: p) :: ps) = c :: join sep (p :: ps).
Proof. destruct ps; reflexivity. Qed.

Lemma split_join_single_spaced (t : text) : forall m b,
  single_spaced_from b t -> (m = InGap -> b = true) ->
  join (py " ") (fst (split_from m t) :: snd (split_from m t)) = t.
Proof.
  induction t as [|c t IH]; intros m b H Hm; [reflexivity|].
  cbn [single_spaced_from] in H. cbn [split_from].
  destruct (is_space c) eqn:Ec.
  - destruct H as (-> & -> & H).
    destruct m.
    + specialize (IH (mode_after " "%char) true H).
      destruct (split_from (mode_after " "%char) t) as [p ps]. cbn [fst snd] in *.
      rewrite join_cons_head, IH; [reflexivity | discriminate].
    + specialize (IH InGap true H (fun _ => eq_refl)).
      destruct (split_from InGap t) as [p ps]. cbn [fst snd] in *.
      rewrite join_cons_cons, IH. reflexivity.
    + specialize (Hm eq_refl). discriminate.
  - assert (IH' := IH (mode_after c) false H).
    assert (Hne : mode_after c = InGap -> false = true).
    { unfold mode_after. destruct (is_terminal c); discriminate. }
    specialize (IH' Hne).
    destruct (split_from (mode_after c) t) as [p ps]. cbn [fst snd] in *.
    destruct m; cbn [fst snd]; rewrite join_cons_head, IH'; reflexivity.
Qed.

Lemma join_split_sentences (t : text) :
  single_spaced t -> join (py " ") (split_sentences t) = t.
Proof.
  intros H. unfold split_sentences.
  pose proof (@split_join_single_spaced t Plain false H) as E.
  destruct (split_from Plain t). apply E. discriminate.
Qed.

Lemma short_summary_sentences (t : text) (max_sentences : Z) :
  (Z.of_nat (List.length (split_sentences t)) <= max_sentences)%Z ->
  join (py " ") (summary_sentences t max_sentences)
  = join (py " ") (split_sentences t).
Proof.
  intros Hlen. unfold summary_sentences. destruct t as [|c t]; [reflexivity|].
  destruct (Z.leb_spec (Z.of_nat (List.length (split_sentences (c :: t)))) max_sentences);
    [reflexivity | lia].
Qed.

(** X3.  A text in which white space is only single spaces and which has at
    most [max_sentences] sentences is summarised by itself, trimmed. *)
Theorem short_text_summarised_whole (t : text) (max_sentences : Z) :
  single_spaced t ->
  (Z.of_nat (List.length (split_sentences t)) <= max_sentences)%Z ->
  simple_extractive_summary t max_sentences = strip t.
Proof.
  intros Hs Hlen.
  rewrite summary_is_join, short_summary_sentences by assumption.
  rewrite join_split_sentences by assumption.
  reflexivity.
Qed.

(** X5.  The score of a sentence adds, for each of its lower-cased tokens,
    the number of times the token stands among the lower-cased tokens of the
    text; a stop word or a token of at most two characters adds nothing. *)
Theorem score_counts (t s : text) :
  score (word_freqs t) s
  = list_sum
      (map (fun w => if negb (mem w stopwords) && (2 <? List.length w)
                     then occurrences w (findall_words (lower t)) else 0)
           (findall_words (lower s))).
Proof.
  unfold score. f_equal. apply map_ext. intros w. apply word_freqs_counts.
Qed.

(** ** The extracted text *)
Lemma single_spaced_from_weaken (s : text) :
  single_spaced_from true s -> single_spaced_from false s.
Proof.
  destruct s as [|c s]; simpl; [auto|].
  destruct (is_space c); [intros (_ & H & _); discriminate | auto].
Qed.

Lemma single_spaced_from_app (s1 s2 : text) : forall b,
  single_spaced_from b (s1 ++ s2) -> single_spaced_from b s1.
Proof.
  induction s1 as [|c s1 IH]; intros b; simpl; [auto|].
  destruct (is_space c); [intros (H1 & H2 & H3); repeat split; auto | apply IH].
Qed.

Lemma lstrip_single_spaced (s : text) : forall b,
  single_spaced_from b s -> single_spaced (lstrip s).
Proof.
  unfold single_spaced.
  induction s as [|c s IH]; intros b H; simpl in *; [exact I|].
  destruct (is_space c) eqn:Ec.
  - destruct H as (_ & _ & H). apply (IH true H).
  - simpl. rewrite Ec. exact H.
Qed.

Lemma rstrip_prefix (s : text) : exists suf, s = rstrip s ++ suf.
Proof.
  unfold rstrip. destruct (lstrip_suffix (rev s)) as (pre & E & _).
  exists (rev pre). rewrite <- rev_app_distr, <- E, rev_involutive. reflexivity.
Qed.

Lemma strip_single_spaced (s : text) : single_spaced s -> single_spaced (strip s).
Proof.
  intros H. unfold strip.
  destruct (rstrip_prefix (lstrip s)) as (suf & E).
  apply (@lstrip_single_spaced s false) in H. unfold single_spaced in *.
  rewrite E in H. apply single_spaced_from_app in H. exact H.
Qed.

Lemma firstn_single_spaced (n : nat) (s : text) :
  single_spaced s -> single_spaced (firstn n s).
Proof.
  unfold single_spaced. intros H. rewrite <- (firstn_skipn n s) in H.
  apply single_spaced_from_app in H. exact H.
Qed.

Section ExtractFacts.
Variable Soup Tag : Type.
Variable BeautifulSoup : text -> Soup.
Variable title_string : Soup -> option text.
Variable find_meta : Soup -> text -> text -> option Tag.
Variable tag_content : Tag -> option text.
Variable visible_text : Soup -> text.

Local Abbreviation extract :=
  (@Extract.extract_text_and_meta Soup Tag BeautifulSoup title_string find_meta tag_content
                                 visible_text).

(** X6.  Whatever the page, the text [extract_text_and_meta] returns has
    white space only as single spaces and none at either end; the preview has
    at most 800 characters, is a prefix of the text and is the text when that
    has at most 800 characters; title and description are empty or without
    white space at either end. *)
Theorem extracted_text_shape (html : text) :
  let info := extract html in
  single_spaced (info_full_text info)
  /\ (info_full_text info = [] \/ trimmed (info_full_text info))
  /\ List.length (info_text_preview info) <= 800
  /\ (exists rest, info_full_text info = info_text_preview info ++ rest)
  /\ (List.length (info_full_text info) <= 800 ->
      info_text_preview info = info_full_text info)
  /\ (info_title info = [] \/ trimmed (info_title info))
  /\ (info_meta_description info = [] \/ trimmed (info_meta_description info)).
Proof.
  intros info. unfold info, Extract.extract_text_and_meta.
  cbn [info_full_text info_text_preview info_title info_meta_description].
  split; [apply strip_single_spaced, collapse_ws_single_spaced|].
  split; [apply strip_trimmed|].
  split; [rewrite length_firstn; lia|].
  split; [eexists; symmetry; apply firstn_skipn|].
  split; [intros H; apply firstn_all2, H|].
  split.
  - destruct (truthy _); [apply strip_trimmed | left; reflexivity].
  - destruct (match find_meta _ _ _ with Some tag => Some tag | None => _ end);
      [apply strip_trimmed | left; reflexivity].
Qed.

(** X7.  When the preview of a page has at most three sentences, its local
    summary is the preview trimmed; when moreover the text of the page has at
    most 800 characters, the local summary is the whole text. *)
Theorem short_page_summarised_whole (html : text) :
  let info := extract html in
  (Z.of_nat (List.length (split_sentences (info_text_preview info))) <= 3)%Z ->
  simple_extractive_summary (info_text_preview info) 3 = strip (info_text_preview info)
  /\ (List.length (info_full_text info) <= 800 ->
      simple_extractive_summary (info_text_preview info) 3 = info_full_text info).
Proof.
  intros info Hlen.
  assert (Hp : single_spaced (info_text_preview info)).
  { unfold info, Extract.extract_text_and_meta. cbn [info_text_preview].
    apply firstn_single_spaced, strip_single_spaced, collapse_ws_single_spaced. }
  assert (E : simple_extractive_summary (info_text_preview info) 3
              = strip (info_text_preview info)).
  { rewrite summary_is_join, short_summary_sentences by assumption.
    rewrite join_split_sentences by assumption. reflexivity. }
  split; [exact E|].
  intros Hshort. rewrite E. revert Hshort.
  unfold info, Extract.extract_text_and_meta. cbn [info_text_preview info_full_text].
  intros Hshort. rewrite firstn_all2 by exact Hshort.
  set (full := strip (collapse_ws (visible_text (BeautifulSoup html)))).
  destruct (strip_trimmed (collapse_ws (visible_text (BeautifulSoup html))))
    as [E0|[Hs He]]; fold full in E0 || fold full in Hs, He.
  - rewrite E0. reflexivity.
  - apply strip_solid; assumption.
Qed.

End ExtractFacts.

End MoreSummaryFacts.

(* ===================================================================== *)
(** * Part X.  Further properties of the orchestrator and of [main]        *)
(* ===================================================================== *)

Section OutcomeFacts.
Local Open Scope monad_scope.

Variable World : Type.
Variable fetch_page : text -> state World (option text).
Variable extract_text_and_meta : text -> page_info.
Variable gemini_request : text -> text -> text -> state World (option text).
Variable print : text -> state World unit.
Variable sleep : nat -> state World unit.
Variable use_gemini : bool.
Variable gemini_api_key gemini_api_url : option text.

Local Abbreviation process :=
  (@process_url World fetch_page extract_text_and_meta gemini_request print sleep
                use_gemini gemini_api_key gemini_api_url).
Local Abbreviation run :=
  (@summarize_urls World fetch_page extract_text_and_meta gemini_request print sleep
                   use_gemini gemini_api_key gemini_api_url).
Local Abbreviation world_before :=
  (@world_at World fetch_page extract_text_and_meta gemini_request print sleep
             use_gemini gemini_api_key gemini_api_url).
Local Abbreviation fetch_of := (@fetched World fetch_page print).
Local Abbreviation answer_of :=
  (@answered World fetch_page extract_text_and_meta gemini_request print
             gemini_api_key gemini_api_url).

Lemma truthy_nonempty (x : option text) : truthy x = true -> the_text x <> [].
Proof. destruct x as [[|c s]|]; simpl; intros H; (discriminate H || discriminate). Qed.

Local Abbreviation expected :=
  (@expected_result extract_text_and_meta use_gemini gemini_api_key gemini_api_url).

Lemma process_url_result total i url w :
  evalState (process total i url) w
  = expected url (evalState (fetch_of total i url) w)
                    (evalState (answer_of total i url) w).
Proof.
  unfold process_url, expected_result, answered, fetched, evalState. simpl.
  destruct (runState (print _) w) as [[] w0].
  destruct (runState (fetch_page url) w0) as [html w1]. simpl.
  destruct (truthy html); simpl; [|reflexivity].
  unfold prompt_of.
  destruct (use_gemini && truthy gemini_api_key && truthy gemini_api_url); simpl.
  - destruct (runState (call_gemini_api _ _ _ _) w1) as [ans w2]. simpl.
    destruct (truthy ans); simpl;
      destruct (runState (sleep 1) w2) as [[] w3]; reflexivity.
  - destruct (runState (sleep 1) w1) as [[] w3]. reflexivity.
Qed.

Local Abbreviation unrolled :=
  (@loop_run World fetch_page extract_text_and_meta gemini_request print sleep
             use_gemini gemini_api_key gemini_api_url).

Lemma run_nth' (urls : list text) (w : World) (k : nat) (url : text) :
  nth_error urls k = Some url ->
  nth_error (evalState (run urls) w) k
  = Some (evalState (process (List.length urls) (S k) url) (world_before k urls w)).
Proof.
  apply (@run_nth _ fetch_page extract_text_and_meta gemini_request print sleep
           use_gemini gemini_api_key gemini_api_url).
Qed.

(** X8.  For a URL whose fetch returns content: when [use_gemini] is off or
    key or endpoint is empty, the record has the note
    [no_gemini_local_extractive]; when they are all set and
    [call_gemini_api] returns nothing, the note
    [gemini_failed_fallback_extractive].  In both the summary is the
    extractive summary of the preview with bound 3, and title and description
    are those extracted. *)
Theorem local_summary_recorded (urls : list text) (w : World) (k : nat) (url : text) :
  nth_error urls k = Some url ->
  let total := List.length urls in
  let w_k := world_before k urls w in
  let html := evalState (fetch_of total (S k) url) w_k in
  let info := extract_text_and_meta (the_text html) in
  let local := simple_extractive_summary (info_text_preview info) 3 in
  truthy html = true ->
  (use_gemini && truthy gemini_api_key && truthy gemini_api_url = false ->
   nth_error (evalState (run urls) w) k
   = Some (SummaryResult url (info_title info) (info_meta_description info) local
                         (py "no_gemini_local_extractive")))
  /\ (use_gemini && truthy gemini_api_key && truthy gemini_api_url = true ->
      truthy (evalState (answer_of total (S k) url) w_k) = false ->
      nth_error (evalState (run urls) w) k
      = Some (SummaryResult url (info_title info) (info_meta_description info) local
                            (py "gemini_failed_fallback_extractive"))).
Proof.
  intros Hk total w_k html info local Hh.
  rewrite (@run_nth' urls w k url Hk), process_url_result.
  unfold expected_result. fold total w_k html. rewrite Hh. cbn [negb].
  split.
  - intros ->. reflexivity.
  - intros -> ->. reflexivity.
Qed.

(** X9.  The note of a record is one of the four notes; it is
    [fetch_failed] exactly when the fetch returned nothing, and then title,
    description and summary are empty; a record noted [generated_by_gemini]
    has a summary that is not empty, and [use_gemini], key and endpoint were
    set. *)
Theorem notes_classify (urls : list text) (w : World) (k : nat) (url : text) :
  nth_error urls k = Some url ->
  let html := evalState (fetch_of (List.length urls) (S k) url) (world_before k urls w) in
  exists r,
    nth_error (evalState (run urls) w) k = Some r
    /\ In (r_notes r) [py "fetch_failed"; py "generated_by_gemini";
                       py "gemini_failed_fallback_extractive";
                       py "no_gemini_local_extractive"]
    /\ (r_notes r = py "fetch_failed" <-> truthy html = false)
    /\ (r_notes r = py "fetch_failed" ->
        r_title r = [] /\ r_meta_description r = [] /\ r_summary r = [])
    /\ (r_notes r = py "generated_by_gemini" ->
        r_summary r <> [] /\ use_gemini = true
        /\ truthy gemini_api_key = true /\ truthy gemini_api_url = true).
Proof.
  intros Hk html.
  rewrite (@run_nth' urls w k url Hk), process_url_result. fold html.
  eexists. split; [reflexivity|].
  unfold expected_result.
  destruct (truthy html); cbn [negb].
  - destruct (use_gemini && truthy gemini_api_key && truthy gemini_api_url) eqn:Eu.
    + apply andb_true_iff in Eu as [Eu Ee]. apply andb_true_iff in Eu as [Eu Ek].
      destruct (truthy (evalState _ _)) eqn:Ea; cbn [r_notes r_summary r_title r_meta_description].
      * split; [right; left; reflexivity|].
        split; [split; discriminate|]. split; [discriminate|].
        intros _. split; [|auto].
        apply truthy_nonempty, Ea.
      * split; [right; right; left; reflexivity|].
        split; [split; discriminate|]. split; discriminate.
    + cbn [r_notes r_summary r_title r_meta_description].
      split; [right; right; right; left; reflexivity|].
      split; [split; discriminate|]. split; discriminate.
  - cbn [r_notes r_summary r_title r_meta_description].
    split; [left; reflexivity|]. split; [split; reflexivity|].
    split; [auto | discriminate].
Qed.

Lemma process_url_world total i url w :
  execState (process total i url) w
  = let w1 := execState (fetch_of total i url) w in
    let html := evalState (fetch_of total i url) w in
    if negb (truthy html) then w1
    else if use_gemini && truthy gemini_api_key && truthy gemini_api_url
         then execState (sleep 1) (execState (answer_of total i url) w)
         else execState (sleep 1) w1.
Proof.
  unfold process_url, answered, fetched, execState, evalState. simpl.
  destruct (runState (print _) w) as [[] w0].
  destruct (runState (fetch_page url) w0) as [html w1]. simpl.
  destruct (truthy html); simpl; [|reflexivity].
  unfold prompt_of.
  destruct (use_gemini && truthy gemini_api_key && truthy gemini_api_url); simpl.
  - destruct (runState (call_gemini_api _ _ _ _) w1) as [ans w2]. simpl.
    destruct (truthy ans); simpl;
      destruct (runState (sleep 1) w2) as [[] w3]; reflexivity.
  - destruct (runState (sleep 1) w1) as [[] w3]. reflexivity.
Qed.

Lemma loop_run_snoc total (l : list text) : forall i u w,
  snd (unrolled total i (l ++ [u]) w)
  = execState (process total (i + List.length l) u) (snd (unrolled total i l w)).
Proof.
  induction l as [|x l IH]; intros i u w; cbn [app loop_run List.length].
  - rewrite Nat.add_0_r. unfold execState. cbn [snd].
    destruct (runState (process total i u) w) as [r w1]. reflexivity.
  - destruct (runState (process total i x) w) as [r w1].
    specialize (IH (S i) u w1).
    destruct (unrolled total (S i) (l ++ [u]) w1) as [rs w2].
    destruct (unrolled total (S i) l w1) as [rs' w2'].
    cbn [snd] in *. rewrite IH. replace (S i + List.length l) with (i + S (List.length l)) by lia.
    reflexivity.
Qed.

Lemma firstn_S_nth (A : Type) (l : list A) : forall k x,
  nth_error l k = Some x -> firstn (S k) l = firstn k l ++ [x].
Proof.
  induction l as [|y l IH]; intros [|k] x H; try discriminate.
  - injection H as ->. reflexivity.
  - cbn [firstn app]. f_equal. apply IH, H.
Qed.

Lemma world_before_next (urls : list text) (w : World) (k : nat) (url : text) :
  nth_error urls k = Some url ->
  world_before (S k) urls w
  = execState (process (List.length urls) (S k) url) (world_before k urls w).
Proof.
  intros Hk.
  rewrite !(@world_before_unrolled _ fetch_page extract_text_and_meta gemini_request
              print sleep use_gemini gemini_api_key gemini_api_url).
  rewrite (@firstn_S_nth _ urls k url Hk), loop_run_snoc.
  rewrite length_firstn, Nat.min_l; [reflexivity|].
  apply Nat.lt_le_incl, nth_error_Some. congruence.
Qed.

(** X10.  After a fetch that returned nothing the loop goes to the next URL
    at once: no pause, no call of the service.  After a fetch that returned
    content, without external summarisation, the only further effect is
    [time.sleep(1.0)]. *)
Theorem pause_only_after_success (urls : list text) (w : World) (k : nat) (url : text) :
  nth_error urls k = Some url ->
  let total := List.length urls in
  let w_k := world_before k urls w in
  let html := evalState (fetch_of total (S k) url) w_k in
  let fetched_world := execState (fetch_of total (S k) url) w_k in
  (truthy html = false -> world_before (S k) urls w = fetched_world)
  /\ (truthy html = true ->
      use_gemini && truthy gemini_api_key && truthy gemini_api_url = false ->
      world_before (S k) urls w = execState (sleep 1) fetched_world).
Proof.
  intros Hk total w_k html fetched_world.
  rewrite (@world_before_next urls w k url Hk), process_url_world.
  fold total w_k html fetched_world. cbv zeta.
  split.
  - intros ->. reflexivity.
  - intros -> ->. reflexivity.
Qed.

End OutcomeFacts.

Section Independence.
Local Open Scope monad_scope.

Variable World : Type.
Variable fetch_page : text -> state World (option text).
Variable extract_text_and_meta : text -> page_info.
Variable print : text -> state World unit.
Variable sleep : nat -> state World unit.
Variable use_gemini : bool.
Variable gemini_api_key gemini_api_url : option text.
Variable request request' : text -> text -> text -> state World (option text).

Hypothesis no_external :
  use_gemini && truthy gemini_api_key && truthy gemini_api_url = false.

Lemma process_url_independent total i url :
  @process_url World fetch_page extract_text_and_meta request print sleep
               use_gemini gemini_api_key gemini_api_url total i url
  = @process_url World fetch_page extract_text_and_meta request' print sleep
                 use_gemini gemini_api_key gemini_api_url total i url.
Proof. unfold process_url. rewrite no_external. reflexivity. Qed.

Lemma summarize_loop_independent total (urls : list text) : forall i results w,
  runState (@summarize_loop World fetch_page extract_text_and_meta request print sleep
              use_gemini gemini_api_key gemini_api_url total i urls results) w
  = runState (@summarize_loop World fetch_page extract_text_and_meta request' print
                sleep use_gemini gemini_api_key gemini_api_url total i urls results) w.
Proof.
  induction urls as [|u urls IH]; intros i results w; cbn [summarize_loop];
    [reflexivity|].
  rewrite !runState_bind, process_url_independent.
  destruct (runState _ w) as [r w1]. apply IH.
Qed.

(** X11.  When [use_gemini] is off, or key or endpoint is empty, the run
    does not depend on the summarisation service: any two services give the
    same records and leave the same world. *)
Theorem external_service_unused (urls : list text) (w : World) :
  runState (@summarize_urls World fetch_page extract_text_and_meta request print sleep
              use_gemini gemini_api_key gemini_api_url urls) w
  = runState (@summarize_urls World fetch_page extract_text_and_meta request' print
                sleep use_gemini gemini_api_key gemini_api_url urls) w.
Proof. apply summarize_loop_independent. Qed.

End Independence.

Section CliFacts.
Local Open Scope monad_scope.
Import Cli.

Variable World : Type.
Variable fetch_page : text -> state World (option text).
Variable extract_text_and_meta : text -> page_info.
Variable gemini_request : text -> text -> text -> state World (option text).
Variable print : text -> state World unit.
Variable sleep : nat -> state World unit.
Variable eprint : text -> state World unit.
Variable write_results_csv : list summary_result -> text -> state World unit.
Variable path_exists : text -> bool.
Variable path_suffix : text -> text.
Variable read_text : text -> text.
Variable read_csv read_excel : text -> ReadUrls.table.
Variable getenv : text -> option text.

Local Abbreviation main' :=
  (@main World fetch_page extract_text_and_meta gemini_request print sleep eprint
         write_results_csv path_exists path_suffix read_text read_csv read_excel getenv).

Lemma url_lines_nil (content : text) :
  Forall skipped_line (ReadUrls.file_lines content) -> ReadUrls.url_lines content = [].
Proof.
  unfold ReadUrls.url_lines. induction 1 as [|l ls Hl _ IH]; [reflexivity|].
  cbn [filter]. destruct Hl as [E|E]; rewrite E; cbn; [exact IH|].
  rewrite andb_false_r. exact IH.
Qed.

(** X12.  On a [.txt] file in which every line is blank or a comment, [main]
    writes the error line to standard error and exits with status 1; no page
    is fetched and no result is written. *)
Theorem main_without_urls (input output : text) (no_gemini : bool) (w : World) :
  path_exists input = true ->
  lower (path_suffix input) = py ".txt" ->
  Forall skipped_line (ReadUrls.file_lines (read_text input)) ->
  runState (main' input output no_gemini) w
  = (Exited 1, execState (eprint (py "[ERROR] No URLs found.")) w).
Proof.
  intros He Hs Hl. unfold main, ReadUrls.read_urls. rewrite He, Hs. cbn [negb mem existsb eqb].
  change (eqb (py ".txt") (py ".txt")) with true. cbn [orb].
  rewrite (@url_lines_nil _ Hl). unfold execState. cbn.
  destruct (runState (eprint _) w) as [[] w']. reflexivity.
Qed.

Lemma loop_run_Forall (P : summary_result -> Prop) use key api total (urls : list text) :
  (forall i url w,
      P (evalState (@process_url World fetch_page extract_text_and_meta gemini_request
                                 print sleep use key api total i url) w)) ->
  forall i w,
    Forall P (fst (@loop_run World fetch_page extract_text_and_meta gemini_request
                            print sleep use key api total i urls w)).
Proof.
  intros HP. induction urls as [|u urls IH]; intros i w; cbn [loop_run]; [constructor|].
  specialize (HP i u w). unfold evalState in HP.
  destruct (runState _ w) as [r w1]. specialize (IH (S i) w1).
  destruct (loop_run _ _ _ _ _ _ _ _ _ _ _ _) as [rs w2]. cbn [fst] in *.
  constructor; assumption.
Qed.

(** X13.  With [--no-gemini], or without [GEMINI_API_KEY] or
    [GEMINI_API_URL], [main] on a list of URLs that is not empty writes the
    records of a run without external summarisation, and every record has the
    note [fetch_failed] or [no_gemini_local_extractive]. *)
Theorem main_without_external (input output : text) (no_gemini : bool) (w : World)
        (urls : list text) :
  ReadUrls.read_urls path_exists path_suffix read_text read_csv read_excel input
  = inr urls ->
  urls <> [] ->
  no_gemini = true \/ truthy (getenv (py "GEMINI_API_KEY")) = false
  \/ truthy (getenv (py "GEMINI_API_URL")) = false ->
  let run :=
    runState (@summarize_urls World fetch_page extract_text_and_meta gemini_request
                print sleep false (getenv (py "GEMINI_API_KEY"))
                (getenv (py "GEMINI_API_URL")) urls) w in
  runState (main' input output no_gemini) w
  = (Returned, execState (write_results_csv (fst run) output) (snd run))
  /\ Forall (fun r => r_notes r = py "fetch_failed"
                      \/ r_notes r = py "no_gemini_local_extractive") (fst run).
Proof.
  intros Hr Hne Hoff run.
  assert (Hu : negb no_gemini && truthy (getenv (py "GEMINI_API_KEY"))
               && truthy (getenv (py "GEMINI_API_URL")) = false).
  { destruct Hoff as [->|[->| ->]]; [reflexivity | apply andb_false_iff; left;
      apply andb_false_r | apply andb_false_r]. }
  split.
  - unfold main. rewrite Hr. destruct urls as [|u urls]; [congruence|].
    rewrite Hu. unfold run, execState. rewrite runState_bind.
    destruct (runState (summarize_urls _ _ _ _ _ _ _ _ _) w) as [results w1].
    cbn [fst snd]. rewrite runState_bind.
    destruct (runState (write_results_csv results output) w1) as [[] w2]. reflexivity.
  - unfold run, summarize_urls.
    rewrite (@loop_unrolled World fetch_page extract_text_and_meta gemini_request print
               sleep false). cbn [fst app].
    apply loop_run_Forall. intros i url w0.
    rewrite process_url_result. unfold expected_result.
    destruct (negb (truthy _)); [left; reflexivity | right; reflexivity].
Qed.

End CliFacts.

(* ===================================================================== *)
(** * Part XI.  Further properties of [read_urls]                          *)
(* ===================================================================== *)

Section UrlFileFacts.
Import ReadUrls.

Lemma file_lines_concat (s : text) : concat (file_lines s) = s.
Proof.
  induction s as [|c s IH]; [reflexivity|]. cbn [file_lines].
  destruct (Ascii.eqb c newline).
  - cbn [concat app]. rewrite IH. reflexivity.
  - destruct (file_lines s) as [|l ls]; cbn [concat app] in *.
    + rewrite <- IH. reflexivity.
    + rewrite <- IH. reflexivity.
Qed.

Lemma file_lines_breaks (s : text) : Forall break_only_last (file_lines s).
Proof.
  induction s as [|c s IH]; [constructor|]. cbn [file_lines].
  destruct (Ascii.eqb c newline) eqn:Ec.
  - constructor; [|exact IH]. intros pre suf E.
    destruct pre as [|d pre].
    + injection E as _ <-. reflexivity.
    + injection E as _ E. destruct pre; discriminate.
  - assert (Hc : c <> newline) by (intros ->; rewrite Ascii.eqb_refl in Ec; discriminate).
    destruct (file_lines s) as [|l ls].
    + constructor; [|constructor]. intros pre suf E.
      destruct pre as [|d pre]; [injection E as E _; contradiction|].
      injection E as _ E. destruct pre; discriminate.
    + inversion IH as [|? ? Hl Hls]. subst. constructor; [|exact Hls].
      intros pre suf E. destruct pre as [|d pre]; [injection E as E _; contradiction|].
      injection E as _ E. apply (Hl pre suf E).
Qed.

Lemma strip_infix (l : text) : exists pre suf, l = pre ++ strip l ++ suf.
Proof.
  destruct (lstrip_suffix l) as (pre & E & _).
  destruct (rstrip_prefix (lstrip l)) as (suf & E').
  exists pre, suf. unfold strip. rewrite <- E'. exact E.
Qed.

Lemma strip_no_break (l : text) : break_only_last l -> ~ In newline (strip l).
Proof.
  intros Hl Hin. apply in_split in Hin as (a & b & E).
  destruct (strip_infix l) as (pre & suf & El).
  rewrite E in El.
  assert (Hb : b ++ suf = []).
  { apply (Hl (pre ++ a)). rewrite El, <- !app_assoc. reflexivity. }
  apply app_eq_nil in Hb as [-> _].
  pose proof (rstrip_ends (lstrip l)) as He. fold (strip l) in He.
  unfold ends_solid in He. rewrite E, last_char_app in He by discriminate.
  simpl in He. discriminate.
Qed.

Lemma url_lines_clean (content : text) : Forall clean_url (url_lines content).
Proof.
  unfold url_lines. apply Forall_forall. intros u Hu.
  apply in_map_iff in Hu as (l & <- & Hl).
  apply filter_In in Hl as [Hl Hf].
  apply andb_true_iff in Hf as [Hne Hh].
  split; [|split].
  - destruct (strip_trimmed l) as [E|H]; [rewrite E in Hne; discriminate | exact H].
  - apply negb_true_iff, Hh.
  - apply strip_no_break.
    pose proof (file_lines_breaks content) as H. rewrite Forall_forall in H. apply H, Hl.
Qed.

Variable path_exists : text -> bool.
Variable path_suffix : text -> text.
Variable read_text : text -> text.
Variable read_csv read_excel : text -> table.

Local Abbreviation read := (read_urls path_exists path_suffix read_text read_csv read_excel).

(** X14.  Every URL read from a [.txt] file has no white space at either
    end (so is not empty), does not begin with [#] and contains no line
    break; there are at most as many URLs as lines. *)
Theorem read_urls_txt_clean (input_path : text) (urls : list text) :
  lower (path_suffix input_path) = py ".txt" ->
  read input_path = inr urls ->
  Forall clean_url urls
  /\ List.length urls <= List.length (file_lines (read_text input_path)).
Proof.
  intros Hs. unfold read_urls. destruct (path_exists input_path); [|discriminate].
  rewrite Hs. simpl. intros [= <-]. split; [apply url_lines_clean|].
  unfold url_lines. rewrite length_map. apply filter_length_le.
Qed.

(** X15.  [read_urls] raises [FileNotFoundError] exactly when the path does
    not exist, whatever its suffix, and the message names the path; on a
    path that exists with a suffix that is none of [.txt], [.csv], [.xlsx]
    and [.xls] once lower-cased, it raises [ValueError] without reading
    the file; and whenever it returns a list, the path exists and the
    suffix, lower-cased, is [.txt], or [.csv] with a column [url] in the
    table read, or [.xlsx] or [.xls] with a column [url] in the table
    read. *)
Theorem read_urls_outcome (input_path : text) :
  let sfx := lower (path_suffix input_path) in
  ((exists msg, read input_path = inl (FileNotFoundError msg))
   <-> path_exists input_path = false)
  /\ (path_exists input_path = false ->
      read input_path
      = inl (FileNotFoundError (py "Input file not found: " ++ input_path)))
  /\ (path_exists input_path = true ->
      ~ In sfx [py ".txt"; py ".csv"; py ".xlsx"; py ".xls"] ->
      read input_path
      = inl (ValueError (py "Unsupported file type. Use .txt, .csv, or .xlsx")))
  /\ (forall urls, read input_path = inr urls ->
      path_exists input_path = true
      /\ (sfx = py ".txt"
          \/ (sfx = py ".csv" /\ column (py "url") (read_csv input_path) <> None)
          \/ ((sfx = py ".xlsx" \/ sfx = py ".xls")
              /\ column (py "url") (read_excel input_path) <> None))).
Proof.
  intros sfx. unfold read_urls. fold sfx.
  destruct (path_exists input_path); cbn [negb].
  2:{ split; [split; [reflexivity | intros _; eexists; reflexivity]|].
      split; [reflexivity|]. split; [discriminate|]. intros urls H. discriminate H. }
  split.
  { split; [intros [msg H] | discriminate].
    destruct (mem sfx [py ".txt"]); [discriminate|].
    destruct (mem sfx [py ".csv"]); [destruct (column _ _); discriminate|].
    destruct (mem sfx [py ".xlsx"; py ".xls"]); [destruct (column _ _); discriminate|].
    discriminate. }
  split; [discriminate|].
  split.
  { intros _ Hn.
    destruct (mem sfx [py ".txt"]) eqn:Et.
    { exfalso. apply Hn. apply mem_In in Et as [Et|[]]. rewrite Et. left. reflexivity. }
    destruct (mem sfx [py ".csv"]) eqn:Ec.
    { exfalso. apply Hn. apply mem_In in Ec as [Ec|[]]. rewrite Ec.
      right. left. reflexivity. }
    destruct (mem sfx [py ".xlsx"; py ".xls"]) eqn:Ex; [|reflexivity].
    exfalso. apply Hn. apply mem_In in Ex as [Ex|[Ex|[]]]; rewrite Ex.
    - right. right. left. reflexivity.
    - right. right. right. left. reflexivity. }
  intros urls H. split; [reflexivity|].
  destruct (mem sfx [py ".txt"]) eqn:Et.
  { apply mem_In in Et as [Et|[]]. left. congruence. }
  destruct (mem sfx [py ".csv"]) eqn:Ec.
  { apply mem_In in Ec as [Ec|[]].
    destruct (column (py "url") (read_csv input_path)); [|discriminate].
    right. left. split; congruence. }
  destruct (mem sfx [py ".xlsx"; py ".xls"]) eqn:Ex; [|discriminate].
  apply mem_In in Ex.
  destruct (column (py "url") (read_excel input_path)); [|discriminate].
  right. right. split; [|congruence].
  destruct Ex as [Ex|[Ex|[]]]; auto.
Qed.

End UrlFileFacts.

(* ===================================================================== *)
(** * Part XII.  Further properties of [analyze]                           *)
(* ===================================================================== *)

Section FrameFacts.

Lemma range_index_from_nth (A : Type) (rows : list A) : forall a i x,
  In (i, x) (combine (seq a (List.length rows)) rows)
  <-> a <= i /\ nth_error rows (i - a) = Some x.
Proof.
  induction rows as [|r rows IH]; intros a i x; cbn [List.length seq combine In].
  - split; [contradiction | intros [_ H]; destruct (i - a); discriminate].
  - rewrite IH. split.
    + intros [[= <- <-]|[H1 H2]].
      * split; [lia|]. rewrite Nat.sub_diag. reflexivity.
      * split; [lia|]. replace (i - a) with (S (i - S a)) by lia. exact H2.
    + intros [H1 H2]. destruct (i - a) as [|d] eqn:E.
      * left. injection H2 as ->. f_equal. lia.
      * right. split; [lia|]. replace (i - S a) with d by lia. exact H2.
Qed.

Lemma range_index_nth (A : Type) (rows : list A) (i : nat) (x : A) :
  In (i, x) (range_index rows) <-> nth_error rows i = Some x.
Proof.
  unfold range_index. rewrite range_index_from_nth, Nat.sub_0_r.
  split; [tauto | split; [lia | assumption]].
Qed.

Lemma range_index_labels (A : Type) (rows : list A) :
  map fst (range_index rows) = seq 0 (List.length rows).
Proof.
  unfold range_index. generalize 0.
  induction rows as [|r rows IH]; intros a; cbn; [reflexivity|].
  rewrite IH. reflexivity.
Qed.

End FrameFacts.

Section KeyOrder.

Lemma leb_cons (x y : ascii) (a b : text) :
  leb (x :: a) (y :: b) = true
  <-> nat_of_ascii x < nat_of_ascii y \/ (x = y /\ leb a b = true).
Proof.
  cbn [leb]. destruct (Nat.ltb_spec (nat_of_ascii x) (nat_of_ascii y)) as [Hlt|Hge].
  - split; [auto | reflexivity].
  - destruct (Ascii.eqb x y) eqn:E.
    + apply Ascii.eqb_eq in E. split; [auto | intros [H|[_ H]]; [lia | exact H]].
    + split; [discriminate|]. intros [H|[H _]]; [lia|].
      subst. rewrite Ascii.eqb_refl in E. discriminate.
Qed.

Lemma leb_total (a b : text) : leb a b = true \/ leb b a = true.
Proof.
  revert b. induction a as [|x a IH]; intros [|y b]; try (left; reflexivity);
    try (right; reflexivity).
  rewrite !leb_cons.
  destruct (Nat.lt_total (nat_of_ascii x) (nat_of_ascii y)) as [H|[H|H]]; auto.
  assert (x = y) as ->.
  { rewrite <- (ascii_nat_embedding x), <- (ascii_nat_embedding y), H. reflexivity. }
  destruct (IH b); auto.
Qed.

Lemma leb_trans (a b c : text) : leb a b = true -> leb b c = true -> leb a c = true.
Proof.
  revert b c. induction a as [|x a IH]; intros [|y b] [|z c]; try reflexivity;
    try discriminate.
  rewrite !leb_cons. intros [H1|[-> H1]] [H2|[-> H2]]; auto; [left; lia|].
  right. split; [reflexivity | eapply IH; eassumption].
Qed.

Lemma leb_order : key_order leb.
Proof. split; [exact leb_total | exact leb_trans]. Qed.

Lemma insert_key_sorted (le : text -> text -> bool) (k : text) (ks : list text) :
  key_order le -> keys_sorted le ks -> keys_sorted le (insert_key le k ks).
Proof.
  intros [Htotal Htrans].
  unfold keys_sorted. induction ks as [|k' ks IH]; intros Hs; cbn [insert_key].
  - repeat constructor.
  - apply StronglySorted_inv in Hs as [Hs Hk'].
    destruct (le k k') eqn:E.
    + constructor; [constructor; assumption|].
      constructor; [assumption|].
      eapply Forall_impl; [|exact Hk']. intros c Hc. eapply Htrans; eassumption.
    + constructor; [auto|].
      apply (Permutation_Forall (Permutation_sym (insert_key_perm le k ks))).
      constructor; [|assumption].
      destruct (Htotal k k') as [H|H]; [congruence | exact H].
Qed.

Lemma sort_keys_sorted (le : text -> text -> bool) (ks : list text) :
  key_order le -> keys_sorted le (sort_keys le ks).
Proof.
  intros Hle. induction ks as [|k ks IH]; cbn [sort_keys];
    [constructor | apply insert_key_sorted; assumption].
Qed.

End KeyOrder.

Section MoreAnalyzeFacts.

Variable Timestamp : Type.
Variable to_datetime : text -> option Timestamp.
Variable to_numeric : text -> option Z.
Variable column_sum : list Z -> Z.
Variable key_leb : text -> text -> bool.
Variable sort_values_desc : frame agg_row -> frame agg_row.

Local Abbreviation analyze' :=
  (@analyze Timestamp to_datetime to_numeric column_sum key_leb sort_values_desc).
Local Abbreviation coerce' := (@coerce Timestamp to_datetime to_numeric).
Local Abbreviation is_valid' := (@is_valid Timestamp to_datetime to_numeric).
Local Abbreviation row_t := (log_row Timestamp).
Local Abbreviation groupby' := (@groupby_sum Timestamp column_sum key_leb).
Local Abbreviation keys' := (@group_keys Timestamp key_leb).

Lemma valid_df_rows' (rows : list csv_row) :
  map snd (filter (fun ir : nat * row_t => negb (invalid_mask (snd ir)))
                  (range_index (map coerce' rows)))
  = map coerce' (filter is_valid' rows).
Proof. apply (@valid_df_rows Timestamp to_datetime to_numeric). Qed.

(** X16.  A row stands in [invalid_rows] under the label [i] exactly when
    the record at position [i] of the input is invalid and the row is that
    record coerced; invalid rows and valid records together are as many as
    the records of the input. *)
Theorem invalid_rows_positions (rows : list csv_row) :
  let s := analyze' rows in
  (forall i r,
      In (i, r) (invalid_rows s)
      <-> exists r0, nth_error rows i = Some r0 /\ coerce' r0 = r
                     /\ is_valid' r0 = false)
  /\ List.length (invalid_rows s) + List.length (filter is_valid' rows)
     = List.length rows.
Proof.
  intros s. unfold s, analyze. cbn [invalid_rows]. split.
  - intros i r. rewrite filter_In, range_index_nth, nth_error_map. cbn [snd].
    unfold is_valid. split.
    + intros [Hn Hm]. destruct (nth_error rows i) as [r0|]; [|discriminate].
      injection Hn as <-. exists r0. rewrite Hm. auto.
    + intros (r0 & -> & <- & Hv). split; [reflexivity|].
      apply negb_false_iff, Hv.
  - rewrite <- (length_map coerce' (filter is_valid' rows)), <- valid_df_rows'.
    rewrite length_map.
    rewrite (filter_length (fun ir : nat * row_t => invalid_mask (snd ir))).
    unfold range_index. rewrite length_combine, length_seq, length_map. lia.
Qed.

Lemma group_total_nonneg (key : row_t -> option text) (k : text) (rows : list csv_row) :
  (0 <= sum_Z (map (@minutes _)
                   (filter (has_key key k) (map coerce' (filter is_valid' rows)))))%Z.
Proof.
  apply sum_Z_nonneg, Forall_forall. intros z Hz.
  apply in_map_iff in Hz as (r & <- & Hr). apply filter_In in Hr as [Hr _].
  apply valid_minutes_nonneg.
  pose proof (@valid_rows_unmasked Timestamp to_datetime to_numeric rows) as H.
  rewrite Forall_forall in H. apply H, Hr.
Qed.

(** X17.  Where the sums pandas computes are exact (whole numbers of
    minutes adding up to less than 2^53 over the valid records), no total
    of [time_per_user] or [time_per_task] is negative. *)
Theorem totals_nonnegative (rows : list csv_row) :
  exact_sums column_sum ->
  (sum_Z (map (@minutes _) (map coerce' (filter is_valid' rows))) < 2 ^ 53)%Z ->
  let s := analyze' rows in
  Forall (fun ir => 0 <= snd (snd ir))%Z (time_per_user s)
  /\ Forall (fun ir => 0 <= snd (snd ir))%Z (time_per_task s).
Proof.
  intros Hexact Hbound s. unfold s, analyze. cbn [time_per_user time_per_task].
  split; apply Forall_forall; intros [i [k total]] Hin; cbn [snd];
    apply groupby_sum_entry in Hin; rewrite valid_df_rows' in Hin; rewrite Hin;
    rewrite (@group_sum_exact Timestamp to_datetime to_numeric column_sum _ rows
               Hexact Hbound);
    apply group_total_nonneg.
Qed.

Lemma groupby_sum_keys (key : row_t -> option text) (df : frame row_t) :
  table_keys (groupby' key df) = keys' key (map snd df).
Proof.
  unfold table_keys, groupby_sum.
  rewrite <- (map_map snd fst), range_index_rows, map_map. cbn [fst]. apply map_id.
Qed.

Lemma group_keys_In (key : row_t -> option text) (rows : list row_t) (k : text) :
  In k (keys' key rows) <-> exists r, In r rows /\ key r = Some k.
Proof.
  unfold group_keys. split.
  - intros H. apply (Permutation_in _ (sort_keys_perm _ _)) in H.
    apply In_unique, In_dropna, in_map_iff in H as (r & Hk & Hr). eauto.
  - intros (r & Hr & Hk). eapply group_keys_cover; eassumption.
Qed.

Lemma grouped_by_groupby (key : row_t -> option text) (ckey : csv_row -> option text)
      (rows : list csv_row) :
  key_order key_leb ->
  (forall r, key (coerce' r) = ckey r) ->
  grouped_by key_leb is_valid' ckey rows
             (groupby' key (filter (fun ir : nat * row_t => negb (invalid_mask (snd ir)))
                                   (range_index (map coerce' rows)))).
Proof.
  intros Hle Hkey. unfold grouped_by. rewrite groupby_sum_keys, valid_df_rows'.
  split; [apply group_keys_NoDup|].
  split; [apply sort_keys_sorted, Hle|]. split.
  - intros k. rewrite group_keys_In. split.
    + intros (r & Hr & Hk). apply in_map_iff in Hr as (r0 & <- & Hr0).
      apply filter_In in Hr0 as [Hin Hv]. exists r0. rewrite <- Hkey. auto.
    + intros (r0 & Hin & Hv & Hk). exists (coerce' r0). rewrite Hkey. split; [|exact Hk].
      apply in_map, filter_In. auto.
  - unfold groupby_sum. rewrite range_index_labels.
    unfold range_index. rewrite length_combine, length_seq, Nat.min_id. reflexivity.
Qed.

(** X18.  [time_per_user] has one row for each user of a valid record and no
    other, labelled 0, 1, ..., in increasing order of the user for the
    order pandas gives to the keys of the column, whenever that order
    compares any two keys and is transitive; likewise [time_per_task] for
    the task types. *)
Theorem grouped_tables (rows : list csv_row) :
  key_order key_leb ->
  grouped_by key_leb is_valid' csv_user rows (time_per_user (analyze' rows))
  /\ grouped_by key_leb is_valid' csv_task_type rows (time_per_task (analyze' rows)).
Proof.
  intros Hle. unfold analyze. cbn [time_per_user time_per_task].
  split; apply grouped_by_groupby; (exact Hle || reflexivity).
Qed.

(** X20.  The reasons the combined report of [Task 1] gives for a row: none
    exactly when the row is not masked; [bad_timestamp] exactly when the
    start is missing, [missing_duration] exactly when the duration is
    missing, [negative_duration] exactly when it is below zero; the last two
    never together. *)
Theorem reasons_match_mask (r : row_t) :
  (reasons r = [] <-> invalid_mask r = false)
  /\ (In (py "bad_timestamp") (reasons r) <-> start r = None)
  /\ (In (py "missing_duration") (reasons r) <-> duration_min r = None)
  /\ (In (py "negative_duration") (reasons r)
      <-> exists d, duration_min r = Some d /\ (d < 0)%Z)
  /\ ~ (In (py "missing_duration") (reasons r)
        /\ In (py "negative_duration") (reasons r)).
Proof.
  unfold reasons, invalid_mask, invalid_timestamp, invalid_duration,
    negative_duration, isna.
  destruct (start r) as [ts|], (duration_min r) as [d|];
    [destruct (Z.ltb_spec d 0) | | destruct (Z.ltb_spec d 0) | ];
    cbn [app negb andb orb In]; unfold not;
    repeat split; intros; trivial;
    repeat match goal with
      | H : _ \/ _ |- _ => destruct H
      | H : _ /\ _ |- _ => destruct H
      | H : exists _, _ |- _ => destruct H
      | H : False |- _ => contradiction
      | H : Some _ = Some _ |- _ => injection H as H; subst
      end;
    try discriminate; try lia; try (left; reflexivity);
    try (right; left; reflexivity); try (eexists; split; [reflexivity | assumption]).
Qed.

End MoreAnalyzeFacts.

Section SortFacts.

Lemma StronglySorted_app_inv (A : Type) (R : A -> A -> Prop) (l1 l2 : list A) :
  StronglySorted R (l1 ++ l2) ->
  StronglySorted R l1 /\ forall a b, In a l1 -> In b l2 -> R a b.
Proof.
  induction l1 as [|x l1 IH]; cbn [app]; intros H.
  - split; [constructor | contradiction].
  - apply StronglySorted_inv in H as [H Hx]. destruct (IH H) as [H1 H2].
    split.
    + constructor; [exact H1|]. apply Forall_app in Hx as [Hx _]. exact Hx.
    + intros a b [<-|Ha] Hb; [|auto].
      rewrite Forall_forall in Hx. apply Hx, in_or_app. right. exact Hb.
Qed.

Lemma insert_row_perm x l : Permutation (insert_row x l) (x :: l).
Proof.
  induction l as [|y l IH]; cbn [insert_row]; [reflexivity|].
  destruct (snd (snd x) <? snd (snd y))%Z; [|reflexivity].
  rewrite IH. apply perm_swap.
Qed.

Lemma stable_sort_desc_perm l : Permutation (stable_sort_desc l) l.
Proof.
  induction l as [|x l IH]; cbn [stable_sort_desc]; [reflexivity|].
  rewrite insert_row_perm, IH. reflexivity.
Qed.

Lemma insert_row_sorted x l : desc_totals l -> desc_totals (insert_row x l).
Proof.
  unfold desc_totals. induction l as [|y l IH]; cbn [insert_row]; intros Hs.
  - repeat constructor.
  - apply StronglySorted_inv in Hs as [Hs Hy].
    destruct (Z.ltb_spec (snd (snd x)) (snd (snd y))).
    + constructor; [auto|].
      apply (Permutation_Forall (Permutation_sym (insert_row_perm x l))).
      constructor; [lia | assumption].
    + constructor; [constructor; assumption|].
      constructor; [assumption|].
      eapply Forall_impl; [|exact Hy]. cbn beta. intros; lia.
Qed.

Lemma stable_sort_desc_sorted l : desc_totals (stable_sort_desc l).
Proof.
  induction l as [|x l IH]; cbn [stable_sort_desc];
    [constructor | apply insert_row_sorted, IH].
Qed.

End SortFacts.

Section Top3Facts.

Variable Timestamp : Type.
Variable to_datetime : text -> option Timestamp.
Variable to_numeric : text -> option Z.
Variable column_sum : list Z -> Z.
Variable key_leb : text -> text -> bool.
Variable sort_values_desc : frame agg_row -> frame agg_row.

Hypothesis sort_perm : forall t, Permutation (sort_values_desc t) t.
Hypothesis sort_desc : forall t, desc_totals (sort_values_desc t).

Local Abbreviation analyze' :=
  (@analyze Timestamp to_datetime to_numeric column_sum key_leb sort_values_desc).

(** X21.  When [sort_values] returns the rows of its argument in decreasing
    order of [total_minutes]: [top3_tasks] has three rows, or all if there
    are fewer; they are rows of [time_per_task], in decreasing order of the
    total, labelled 0, 1, 2; and every row left out has a total no greater
    than any total kept. *)
Theorem top3_greatest (rows : list csv_row) :
  let s := analyze' rows in
  let every := map snd (time_per_task s) in
  let top := map snd (top3_tasks s) in
  List.length top = Nat.min 3 (List.length every)
  /\ (forall row, In row top -> In row every)
  /\ StronglySorted (fun a b : text * Z => (snd b <= snd a)%Z) top
  /\ (forall row, In row every ->
                  In row top \/ forall row', In row' top -> (snd row <= snd row')%Z)
  /\ map fst (top3_tasks s) = seq 0 (List.length top).
Proof.
  intros s every top. unfold top, every, s, analyze. cbn [top3_tasks time_per_task].
  set (t := groupby_sum _ _ (@task_type _) _).
  unfold rank_top3, reset_index, head. rewrite range_index_rows, range_index_labels.
  rewrite !length_map.
  pose proof (sort_perm t) as Hp. pose proof (sort_desc t) as Hs.
  unfold desc_totals in Hs.
  rewrite <- (firstn_skipn 3 (sort_values_desc t)) in Hs.
  apply StronglySorted_app_inv in Hs as [Hs Hle].
  split; [rewrite length_firstn, (Permutation_length Hp); reflexivity|].
  split.
  { intros row Hin. apply in_map_iff in Hin as (ir & <- & Hin). apply in_map.
    apply (Permutation_in _ Hp). rewrite <- (firstn_skipn 3). apply in_or_app. auto. }
  split.
  { clear -Hs. induction Hs as [|ir l Hl IH Hir]; cbn [map]; constructor; [exact IH|].
    apply Forall_map. exact Hir. }
  split; [|reflexivity].
  intros row Hin. apply in_map_iff in Hin as (ir & <- & Hin).
  apply (Permutation_in _ (Permutation_sym Hp)) in Hin.
  rewrite <- (firstn_skipn 3) in Hin. apply in_app_or in Hin as [Hin|Hin].
  - left. apply in_map, Hin.
  - right. intros row' Hin'. apply in_map_iff in Hin' as (ir' & <- & Hin').
    apply (Hle ir' ir Hin' Hin).
Qed.

End Top3Facts.

Section RankingFacts.

(** Rows in decreasing order of totals that are pairwise distinct stand in
    one order only. *)
Lemma desc_totals_unique (l1 : frame (text * Z)) : forall l2 : frame (text * Z),
  desc_totals l1 -> desc_totals l2 -> Permutation l1 l2 ->
  NoDup (totals l1) -> l1 = l2.
Proof.
  unfold desc_totals, totals.
  induction l1 as [|x l1 IH]; intros l2 H1 H2 Hp Hnd.
  - apply Permutation_nil in Hp. congruence.
  - destruct l2 as [|y l2]; [apply Permutation_sym, Permutation_nil in Hp; discriminate|].
    apply StronglySorted_inv in H1 as [H1 Hx].
    apply StronglySorted_inv in H2 as [H2 Hy].
    cbn [map] in Hnd. apply NoDup_cons_iff in Hnd as [Hnx Hnd].
    assert (x = y) as ->.
    { assert (Hin1 : In y (x :: l1))
        by (apply (Permutation_in _ (Permutation_sym Hp)); left; reflexivity).
      assert (Hin2 : In x (y :: l2)) by (apply (Permutation_in _ Hp); left; reflexivity).
      destruct Hin1 as [E|Hin1]; [assumption|].
      destruct Hin2 as [E|Hin2]; [congruence|].
      rewrite Forall_forall in Hx, Hy.
      pose proof (Hx _ Hin1) as Hle1. pose proof (Hy _ Hin2) as Hle2.
      cbn beta in Hle1, Hle2.
      exfalso. apply Hnx.
      replace (snd (snd x)) with (snd (snd y)) by lia.
      apply (in_map (fun ir : nat * (text * Z) => snd (snd ir))), Hin1. }
    f_equal. apply IH; try assumption. eapply Permutation_cons_inv, Hp.
Qed.

Variable Timestamp : Type.
Variable to_datetime : text -> option Timestamp.
Variable to_numeric : text -> option Z.
Variable column_sum : list Z -> Z.
Variable key_leb : text -> text -> bool.
Variable sort_values_desc : frame agg_row -> frame agg_row.

Hypothesis sort_perm : forall t, Permutation (sort_values_desc t) t.
Hypothesis sort_desc : forall t, desc_totals (sort_values_desc t).

Local Abbreviation analyze' :=
  (@analyze Timestamp to_datetime to_numeric column_sum key_leb sort_values_desc).

(** C9.  [sort_values] returning the rows of its argument in decreasing
    order of [total_minutes]: the table [ranked] it makes of the
    [time_per_task] that [analyze] returns has the rows of that table, in
    decreasing order of the total; the rows of the [top3_tasks] of the same
    call are the first three rows of [ranked], or all if there are fewer,
    in that order, and their labels are 0, 1, 2.  When no two totals of
    [time_per_task] are equal, every arrangement of its rows in decreasing
    order of the total has these same first three rows. *)
Theorem ranking_reproduces_top3 (rows : list csv_row) :
  let s := analyze' rows in
  let ranked := sort_values_desc (time_per_task s) in
  Permutation ranked (time_per_task s)
  /\ desc_totals ranked
  /\ map snd (top3_tasks s) = map snd (firstn 3 ranked)
  /\ map fst (top3_tasks s) = seq 0 (Nat.min 3 (List.length (time_per_task s)))
  /\ (forall sorted : frame agg_row,
        Permutation sorted (time_per_task s) -> desc_totals sorted ->
        NoDup (totals (time_per_task s)) ->
        map snd (firstn 3 sorted) = map snd (top3_tasks s)).
Proof.
  intros s ranked.
  assert (Erows : map snd (top3_tasks s) = map snd (firstn 3 ranked)).
  { unfold ranked, s, analyze, rank_top3, reset_index, head.
    cbn [top3_tasks time_per_task]. apply range_index_rows. }
  split; [apply sort_perm|]. split; [apply sort_desc|]. split; [exact Erows|].
  split.
  - unfold s, analyze, rank_top3, reset_index, head. cbn [top3_tasks time_per_task].
    rewrite range_index_labels, length_map, length_firstn.
    rewrite (Permutation_length (sort_perm _)). reflexivity.
  - intros sorted Hp Hs Hnd. rewrite Erows. f_equal. f_equal.
    apply desc_totals_unique; [exact Hs | apply sort_desc | |].
    + rewrite Hp. symmetry. apply sort_perm.
    + unfold totals in *.
      apply (Permutation_NoDup
               (Permutation_map (fun ir : nat * (text * Z) => snd (snd ir))
                                (Permutation_sym Hp))), Hnd.
Qed.

End RankingFacts.

Section OutputFacts.
Import Outputs.

Lemma startswith_prefix (p s : text) :
  startswith p s = true <-> exists suf, s = p ++ suf.
Proof.
  revert s. induction p as [|x p IH]; intros s; cbn [startswith].
  - split; [intros _; exists s; reflexivity | reflexivity].
  - destruct s as [|y s]; [split; [discriminate | intros [suf H]; discriminate]|].
    rewrite andb_true_iff, Ascii.eqb_eq, IH. split.
    + intros [-> [suf ->]]. exists suf. reflexivity.
    + intros [suf [= -> ->]]. split; [reflexivity | exists suf; reflexivity].
Qed.

Lemma occurs_in_tail (old : text) (c : ascii) (s : text) :
  occurs_in old (c :: s) -> startswith old (c :: s) = false -> occurs_in old s.
Proof.
  intros (pre & suf & E) Hs. destruct pre as [|d pre].
  - exfalso. assert (H : startswith old (c :: s) = true)
      by (apply startswith_prefix; exists suf; exact E).
    congruence.
  - injection E as _ ->. exists pre, suf. reflexivity.
Qed.

Lemma replace_absent (old new s : text) :
  ~ occurs_in old s -> str_replace old new s = s.
Proof.
  unfold str_replace. induction s as [|c s IH]; intros H; [reflexivity|].
  cbn [replace_from]. destruct (startswith old (c :: s)) eqn:E.
  - exfalso. apply H. apply startswith_prefix in E as [suf E].
    exists [], suf. exact E.
  - f_equal. apply IH. intros (pre & suf & E'). apply H.
    exists (c :: pre), suf. rewrite E'. reflexivity.
Qed.

Lemma clashb_app (a b : text) :
  clashb a b = true -> forall r1 r2, a ++ r1 <> b ++ r2.
Proof.
  revert b. induction a as [|x a IH]; intros [|y b]; cbn [clashb]; try discriminate.
  intros H r1 r2 [= E1 E2]. subst y. rewrite Ascii.eqb_refl in H. cbn in H.
  exact (IH b H r1 r2 E2).
Qed.

Lemma replace_distinct (old new1 new2 s : text) :
  old <> [] -> clashb new1 new2 = true -> occurs_in old s ->
  str_replace old new1 s <> str_replace old new2 s.
Proof.
  intros Hold Hc. unfold str_replace. induction s as [|c s IH]; intros Ho.
  - destruct Ho as (pre & suf & E). destruct pre, old; try discriminate. congruence.
  - cbn [replace_from]. destruct (startswith old (c :: s)) eqn:E.
    + apply clashb_app, Hc.
    + intros [= H]. apply IH; [|exact H]. eapply occurs_in_tail; eassumption.
Qed.

Lemma file_holding_written (writes : list (text * table_name)) (p : text) :
  file_holding writes p <> None -> In p (map fst writes).
Proof.
  induction writes as [|[q u] writes IH]; cbn [file_holding map fst In]; [congruence|].
  destruct (file_holding writes p); [intros _; right; apply IH; discriminate|].
  destruct (eqb q p) eqn:Eq; [|congruence]. intros _. left. apply eqb_eq, Eq.
Qed.

Lemma file_holding_last (writes : list (text * table_name)) :
  NoDup (map fst writes) ->
  forall p t, In (p, t) writes -> file_holding writes p = Some t.
Proof.
  induction writes as [|[q u] writes IH]; intros Hnd p t Hin; [contradiction|].
  cbn [map fst] in Hnd. apply NoDup_cons_iff in Hnd as [Hq Hnd].
  cbn [file_holding]. destruct Hin as [[= -> ->]|Hin].
  - destruct (file_holding writes p) as [t'|] eqn:E.
    + exfalso. apply Hq, file_holding_written. congruence.
    + rewrite eqb_refl. reflexivity.
  - rewrite (IH Hnd p t Hin). reflexivity.
Qed.

(** X22.  The files of [analyze_logs.py].  When the output name contains
    [.csv], the four tables go to four different paths and each path holds
    its table.  When it does not, the four paths are the output name itself:
    the tables are written one over the other and the file holds
    [invalid_rows] only. *)
Theorem output_files (out : text) :
  out <> [] ->
  (occurs_in (py ".csv") out ->
   NoDup (map fst (csv_writes (Some out)))
   /\ forall p t, In (p, t) (csv_writes (Some out)) ->
                  file_holding (csv_writes (Some out)) p = Some t)
  /\ (~ occurs_in (py ".csv") out ->
      map fst (csv_writes (Some out)) = [out; out; out; out]
      /\ forall p, file_holding (csv_writes (Some out)) p
                   = if eqb out p then Some InvalidRows else None).
Proof.
  intros Hne. unfold csv_writes.
  assert (Ht : Orchestrator.truthy (Some out) = true) by (destruct out; [exfalso; apply Hne; reflexivity | reflexivity]).
  rewrite Ht. cbn [Orchestrator.the_text]. unfold output_paths, suffixes.
  cbn [map combine]. split.
  - intros Ho.
    assert (Hnd : NoDup (map fst
      [(str_replace (py ".csv") (py "_time_per_user.csv") out, TimePerUser);
       (str_replace (py ".csv") (py "_time_per_task.csv") out, TimePerTask);
       (str_replace (py ".csv") (py "_top3_tasks.csv") out, Top3Tasks);
       (str_replace (py ".csv") (py "_invalid_rows.csv") out, InvalidRows)])).
    { cbn [map fst].
      repeat (constructor;
              [cbn [In]; intros H;
               repeat (destruct H as [H|H];
                       [revert H; apply not_eq_sym, replace_distinct;
                        [discriminate | reflexivity | exact Ho]|]);
               exact H|]).
      constructor. }
    split; [exact Hnd | apply file_holding_last, Hnd].
  - intros Ho. rewrite !(fun new => @replace_absent (py ".csv") new out Ho). split; [reflexivity|].
    intros p. cbn [file_holding]. destruct (eqb out p); reflexivity.
Qed.

Lemma no_output_without_path : csv_writes None = [] /\ csv_writes (Some []) = [].
Proof. split; reflexivity. Qed.

End OutputFacts.

(* ===================================================================== *)
(** * Part XIII.  Concrete runs of the further properties                  *)
(* ===================================================================== *)

Lemma short_text_summarised_whole_witness :
  simple_extractive_summary (py "Hello there. Bye.") 3 = strip (py "Hello there. Bye.").
Proof.
  apply (@short_text_summarised_whole (py "Hello there. Bye.") 3).
  - cbv. repeat split.
  - vm_compute. discriminate.
Defined.

Lemma distinct_sentences_within_bound_witness :
  (Z.of_nat
     (List.length
        (split_sentences
           (simple_extractive_summary
              (py "The cat sat down. Dogs bark loudly at cats. A cat is a cat. Hello.")
              2))) <= 2)%Z.
Proof.
  apply (@distinct_sentences_within_bound
           (py "The cat sat down. Dogs bark loudly at cats. A cat is a cat. Hello.") 2).
  - split; vm_compute; reflexivity.
  - vm_compute.
    repeat (constructor;
            [simpl; intros H; repeat (destruct H as [H|H]; [discriminate H|]);
             exact H|]).
    constructor.
  - lia.
Defined.

Lemma extracted_text_shape_witness :
  info_text_preview (Extract.plain_extract (py "  Hello   there.  Bye. "))
  = info_full_text (Extract.plain_extract (py "  Hello   there.  Bye. ")).
Proof.
  pose proof (@extracted_text_shape text text (fun html => html) (fun soup => Some soup)
                (fun _ _ _ => None) (fun _ => None) (fun soup => soup)
                (py "  Hello   there.  Bye. ")) as H.
  cbv zeta in H. destruct H as (_ & _ & _ & _ & H & _).
  apply H. vm_compute. lia.
Defined.

Lemma short_page_summarised_whole_witness :
  simple_extractive_summary
    (info_text_preview (Extract.plain_extract (py "  Hello   there.  Bye. "))) 3
  = py "Hello there. Bye.".
Proof.
  pose proof (@short_page_summarised_whole text text (fun html => html)
                (fun soup => Some soup) (fun _ _ _ => None) (fun _ => None)
                (fun soup => soup) (py "  Hello   there.  Bye. ")) as H.
  cbv zeta in H. destruct H as [_ H]; [vm_compute; discriminate|].
  unfold Extract.plain_extract.
  rewrite H; [vm_compute; reflexivity | vm_compute; lia].
Defined.

Lemma local_summary_recorded_witness :
  let w := Script [(py "u1", Some (py "Hello there. Bye."))] [] [] in
  nth_error
    (evalState (summarize_urls script_fetch script_extract script_request
                               script_print script_sleep false None None [py "u1"]) w) 0
  = Some (SummaryResult (py "u1") (py "Hello there. Bye.") []
                        (py "Hello there. Bye.") (py "no_gemini_local_extractive")).
Proof.
  intros w.
  exact (proj1 (@local_summary_recorded script script_fetch script_extract
                  script_request script_print script_sleep false None None
                  [py "u1"] w 0 (py "u1") eq_refl eq_refl) eq_refl).
Defined.

Lemma notes_classify_witness :
  let w := Script [(py "u1", Some (py "Hello there. Bye."))] [] [] in
  exists r,
    nth_error
      (evalState (summarize_urls script_fetch script_extract script_request
                                 script_print script_sleep false None None
                                 [py "u1"; py "u2"]) w) 1 = Some r
    /\ r_notes r = py "fetch_failed"
    /\ r_summary r = [].
Proof.
  intros w.
  destruct (@notes_classify script script_fetch script_extract script_request
              script_print script_sleep false None None [py "u1"; py "u2"] w 1
              (py "u2") eq_refl) as (r & H1 & _ & H2 & H3 & _).
  exists r. split; [exact H1|].
  assert (Hn : r_notes r = py "fetch_failed") by (apply H2; vm_compute; reflexivity).
  split; [exact Hn | apply H3, Hn].
Defined.

Lemma pause_only_after_success_witness :
  let w := Script [(py "u1", Some (py "Hello there. Bye."))] [] [] in
  let urls := [py "u2"; py "u1"] in
  world_at script_fetch script_extract script_request script_print script_sleep
           false None None 1 urls w
  = execState (fetched script_fetch script_print 2 1 (py "u2"))
              (world_at script_fetch script_extract script_request script_print
                        script_sleep false None None 0 urls w).
Proof.
  intros w urls.
  apply (proj1 (@pause_only_after_success script script_fetch script_extract
                  script_request script_print script_sleep false None None
                  urls w 0 (py "u2") eq_refl)).
  vm_compute. reflexivity.
Defined.

Lemma external_service_unused_witness :
  let w := Script [(py "u1", Some (py "Hello there. Bye."))] [Some (py "unused")] [] in
  runState (summarize_urls script_fetch script_extract script_request
                           script_print script_sleep true None (Some (py "endpoint"))
                           [py "u1"]) w
  = runState (summarize_urls script_fetch script_extract
                             (fun _ _ _ => mkState (fun w => (None, w)))
                             script_print script_sleep true None (Some (py "endpoint"))
                             [py "u1"]) w.
Proof.
  intros w.
  apply (@external_service_unused script script_fetch script_extract script_print
           script_sleep true None (Some (py "endpoint")) script_request
           (fun _ _ _ => mkState (fun w => (None, w)))).
  reflexivity.
Defined.

Lemma main_without_urls_witness :
  let w := Script [] [] [] in
  runState
    (Cli.main script_fetch script_extract script_request script_print script_sleep
              script_print (fun _ out => script_print out)
              (fun _ => true) (fun _ => py ".txt")
              (fun _ => join [ReadUrls.newline] [py "# nothing here"; py "   "; py ""])
              (fun _ => []) (fun _ => []) (fun _ => None)
              (py "urls.txt") (py "out.csv") false) w
  = (Cli.Exited 1, execState (script_print (py "[ERROR] No URLs found.")) w).
Proof.
  intros w.
  apply (@main_without_urls script script_fetch script_extract script_request
           script_print script_sleep script_print (fun _ out => script_print out)
           (fun _ => true) (fun _ => py ".txt")
           (fun _ => join [ReadUrls.newline] [py "# nothing here"; py "   "; py ""])
           (fun _ => []) (fun _ => []) (fun _ => None)).
  - reflexivity.
  - reflexivity.
  - vm_compute. repeat constructor; ((left; reflexivity) || (right; reflexivity)).
Defined.

Lemma main_without_external_witness :
  let w := Script [(py "u1", Some (py "Hello there. Bye."))] [] [] in
  Forall (fun r => r_notes r = py "fetch_failed"
                   \/ r_notes r = py "no_gemini_local_extractive")
         (fst (runState
                 (summarize_urls script_fetch script_extract script_request
                                 script_print script_sleep false
                                 (Some (py "key")) (Some (py "endpoint"))
                                 [py "u1"; py "u2"]) w)).
Proof.
  intros w.
  apply (proj2 (@main_without_external script script_fetch script_extract script_request
                  script_print script_sleep script_print (fun _ out => script_print out)
                  (fun _ => true) (fun _ => py ".txt")
                  (fun _ => join [ReadUrls.newline] [py "u1"; py "u2"])
                  (fun _ => []) (fun _ => [])
                  (fun name => if eqb name (py "GEMINI_API_KEY")
                               then Some (py "key") else Some (py "endpoint"))
                  (py "urls.txt") (py "out.csv") true w [py "u1"; py "u2"]
                  eq_refl ltac:(discriminate) (or_introl eq_refl))).
Defined.

Lemma read_urls_txt_clean_witness :
  Forall clean_url [py "https://a.example"; py "https://b.example/x"]
  /\ 2 <= 3.
Proof.
  apply (@read_urls_txt_clean (fun _ => true) (fun _ => py ".TXT")
           (fun _ => join [ReadUrls.newline]
                          [py "https://a.example"; py "  # a comment";
                           py "   https://b.example/x  "; py ""])
           (fun _ => []) (fun _ => []) (py "urls.TXT")
           [py "https://a.example"; py "https://b.example/x"]);
    vm_compute; reflexivity.
Defined.

Lemma read_urls_outcome_witness :
  ReadUrls.read_urls (fun _ => true) (fun _ => py ".PDF") (fun _ => [])
                     (fun _ => []) (fun _ => []) (py "urls.PDF")
  = inl (ReadUrls.ValueError (py "Unsupported file type. Use .txt, .csv, or .xlsx"))
  /\ ReadUrls.read_urls (fun _ => false) (fun _ => py ".txt") (fun _ => [])
                        (fun _ => []) (fun _ => []) (py "urls.txt")
     = inl (ReadUrls.FileNotFoundError (py "Input file not found: urls.txt")).
Proof.
  split.
  - apply (proj1 (proj2 (proj2 (@read_urls_outcome
             (fun _ => true) (fun _ => py ".PDF") (fun _ => [])
             (fun _ => []) (fun _ => []) (py "urls.PDF"))))); [reflexivity|].
    vm_compute. intros H.
    repeat (destruct H as [H|H]; [discriminate H|]). exact H.
  - apply (proj1 (proj2 (@read_urls_outcome
             (fun _ => false) (fun _ => py ".txt") (fun _ => [])
             (fun _ => []) (fun _ => []) (py "urls.txt")))). reflexivity.
Defined.

Lemma totals_nonnegative_witness :
  let rows := [row "alice" "build" "2024-01-01T10:00" "30";
               row "bob" "test" "2024-01-01T11:00" "-5";
               row "carol" "test" "2024-01-02T09:30" "12"] in
  Forall (fun ir => 0 <= snd (snd ir))%Z (time_per_user (demo_analyze rows))
  /\ Forall (fun ir => 0 <= snd (snd ir))%Z (time_per_task (demo_analyze rows)).
Proof.
  intros rows.
  exact (@totals_nonnegative text demo_to_datetime demo_to_numeric int64_sum leb
           stable_sort_desc rows int64_sum_exact ltac:(vm_compute; reflexivity)).
Defined.

Lemma grouped_tables_witness :
  let rows := [row "carol" "test" "2024-01-02T09:30" "12";
               row "alice" "build" "2024-01-01T10:00" "30";
               row "bob" "test" "bad-date" "5";
               row "alice" "test" "2024-01-01T11:00" "7"] in
  grouped_by leb (is_valid demo_to_datetime demo_to_numeric) csv_user rows
             (time_per_user (demo_analyze rows))
  /\ grouped_by leb (is_valid demo_to_datetime demo_to_numeric) csv_task_type rows
                (time_per_task (demo_analyze rows)).
Proof.
  intros rows.
  exact (@grouped_tables text demo_to_datetime demo_to_numeric int64_sum leb
           stable_sort_desc rows leb_order).
Defined.

Lemma ranking_reproduces_top3_witness :
  let rows := [row "alice" "build" "2024-01-01T10:00" "30";
               row "bob" "test" "2024-01-01T11:00" "5";
               row "carol" "deploy" "2024-01-01T12:00" "12";
               row "dave" "review" "2024-01-01T13:00" "7"] in
  let s := demo_analyze rows in
  map snd (top3_tasks s) = map snd (firstn 3 (stable_sort_desc (time_per_task s)))
  /\ map fst (top3_tasks s) = [0; 1; 2]
  /\ map snd (top3_tasks s)
     = [(py "build", 30%Z); (py "deploy", 12%Z); (py "review", 7%Z)].
Proof.
  intros rows s.
  destruct (@ranking_reproduces_top3 text demo_to_datetime demo_to_numeric
              int64_sum leb stable_sort_desc stable_sort_desc_perm
              stable_sort_desc_sorted rows) as (_ & _ & H1 & H2 & _).
  split; [exact H1|]. split; [exact H2|].
  vm_compute. reflexivity.
Defined.

Lemma top3_greatest_witness :
  let rows := [row "alice" "build" "2024-01-01T10:00" "30";
               row "bob" "test" "2024-01-01T11:00" "5";
               row "carol" "deploy" "2024-01-01T12:00" "12";
               row "dave" "review" "2024-01-01T13:00" "7"] in
  let every := map snd (time_per_task (demo_analyze rows)) in
  let top := map snd (top3_tasks (demo_analyze rows)) in
  List.length top = Nat.min 3 (List.length every)
  /\ (forall r, In r top -> In r every)
  /\ StronglySorted (fun a b : text * Z => (snd b <= snd a)%Z) top
  /\ (forall r, In r every ->
                In r top \/ forall r', In r' top -> (snd r <= snd r')%Z)
  /\ map fst (top3_tasks (demo_analyze rows)) = seq 0 (List.length top).
Proof.
  intros rows.
  exact (@top3_greatest text demo_to_datetime demo_to_numeric int64_sum leb
           stable_sort_desc stable_sort_desc_perm stable_sort_desc_sorted rows).
Defined.

Lemma output_files_witness :
  NoDup (map fst (Outputs.csv_writes (Some (py "report.csv"))))
  /\ forall p t, In (p, t) (Outputs.csv_writes (Some (py "report.csv"))) ->
                 Outputs.file_holding (Outputs.csv_writes (Some (py "report.csv"))) p
                 = Some t.
Proof.
  apply (proj1 (@output_files (py "report.csv") ltac:(discriminate))).
  exists (py "report"), []. reflexivity.
Defined.
